(** * ircChat (WonkChat): the persistence layer [src/lib/data.ts]

    A shallow embedding of the storage module: the two SQL tables
    ([users], [rooms]), the knex queries run against them, and the
    exported async functions, followed by the properties the
    specification states about them. *)

From Stdlib Require Import ZArith Ascii String.
From Stdlib.Strings Require Import Byte.
From stdpp Require Import gmap strings list fin_maps.

Set Default Proof Using "Type".
Local Open Scope string_scope.
Local Open Scope list_scope.
Local Open Scope Z_scope.

(** ** JavaScript values used by the module *)

(** [String.prototype.toLowerCase] on names written in ASCII, where it is
    the program's function: [A]..[Z] are mapped to [a]..[z] and every
    other code unit is kept.  The case mapping of letters outside ASCII
    is not modelled: on a name holding such letters the program may
    lowercase more than this function does. *)
Definition lower_ascii (c : ascii) : ascii :=
  let n := nat_of_ascii c in
  if ((65 <=? n)%nat && (n <=? 90)%nat)%bool then ascii_of_nat (n + 32) else c.

Fixpoint toLowerCase (s : string) : string :=
  match s with
  | EmptyString => EmptyString
  | String c s' => String (lower_ascii c) (toLowerCase s')
  end.

(** A JavaScript [Set<string>]: its elements in insertion order, without
    repetition.  [Array.from] and iteration follow that order. *)
Module JSSet.
Abbreviation t := (list string) (only parsing).

Definition empty : t := [].

(** [s.add(x)]: appended when absent, no effect otherwise. *)
Definition add (x : string) (s : t) : t :=
  if decide (x ∈ s) then s else s ++ [x].

(** [s.delete(x)]. *)
Definition delete (x : string) (s : t) : t :=
  filter (λ y, y ≠ x) s.

(** [for (const x of xs) s.add(x)]. *)
Definition add_all (xs : list string) (s : t) : t :=
  foldl (λ acc x, add x acc) s xs.

(** [new Set(xs)]. *)
Definition of_array (xs : list string) : t := add_all xs empty.

(** [Array.from(s)]. *)
Definition to_array (s : t) : list string := s.
End JSSet.

Definition bytes := list byte.

(** ** The database *)

(** A row of table [users]; the primary key [username] is the key of the
    map.  Column [rooms] holds the JSON text of an array of strings,
    kept here as that array ([JSON.parse] of [JSON.stringify xs] is [xs]);
    its default ["[]"] is the empty list.  Column [online] is an SQLite
    boolean, that is an integer. *)
Record UserRow := mkUserRow {
  user_displayName : option string;
  user_password : string;
  user_color : string;
  user_rooms : list string;
  user_online : Z;
  user_publicKey : option bytes
}.

(** A row of table [rooms], keyed by [name]. *)
Record RoomRow := mkRoomRow {
  room_description : option string;
  room_members : list string;
  room_publicKey : bytes;
  room_privateKey : bytes
}.

Record Tables := mkTables {
  users : gmap string UserRow;
  rooms : gmap string RoomRow
}.

(** The world a call runs in: the tables, the storage faults still to
    come (one entry per query sent to the database, [true] meaning that
    query is rejected; past the end of the list no query fails), and the
    randomness consumed by salts and key generation. *)
Record World := mkWorld {
  db : Tables;
  faults : list bool;
  entropy : nat
}.

Definition set_db (t : Tables) (w : World) : World :=
  mkWorld t (faults w) (entropy w).

Definition set_users (f : gmap string UserRow → gmap string UserRow)
    (w : World) : World :=
  set_db (mkTables (f (users (db w))) (rooms (db w))) w.

Definition set_rooms (f : gmap string RoomRow → gmap string RoomRow)
    (w : World) : World :=
  set_db (mkTables (users (db w)) (f (rooms (db w)))) w.

(** The columns set by the [update] queries of the module. *)
Definition set_color (c : string) (r : UserRow) : UserRow :=
  mkUserRow (user_displayName r) (user_password r) c (user_rooms r)
    (user_online r) (user_publicKey r).

Definition set_user_rooms (rs : list string) (r : UserRow) : UserRow :=
  mkUserRow (user_displayName r) (user_password r) (user_color r) rs
    (user_online r) (user_publicKey r).

Definition set_online (b : bool) (r : UserRow) : UserRow :=
  mkUserRow (user_displayName r) (user_password r) (user_color r)
    (user_rooms r) (if b then 1 else 0) (user_publicKey r).

Definition set_publicKey (k : bytes) (r : UserRow) : UserRow :=
  mkUserRow (user_displayName r) (user_password r) (user_color r)
    (user_rooms r) (user_online r) (Some k).

Definition set_members (ms : list string) (r : RoomRow) : RoomRow :=
  mkRoomRow (room_description r) ms (room_publicKey r) (room_privateKey r).

(** ** Promises *)

Inductive Outcome (A : Type) : Type :=
  | Resolved (a : A)
  | Rejected.
Arguments Resolved {A} a.
Arguments Rejected {A}.

Definition Promise (A : Type) : Type := World → Outcome A * World.

Definition resolve {A} (a : A) : Promise A := λ w, (Resolved a, w).
Definition reject {A} : Promise A := λ w, (Rejected, w).

Definition then_ {A B} (m : Promise A) (k : A → Promise B) : Promise B :=
  λ w, match m w with
       | (Resolved a, w') => k a w'
       | (Rejected, w') => (Rejected, w')
       end.

(** [p.catch(() => v)]. *)
Definition catch {A} (m : Promise A) (v : A) : Promise A :=
  λ w, match m w with
       | (Resolved a, w') => (Resolved a, w')
       | (Rejected, w') => (Resolved v, w')
       end.

Declare Scope promise_scope.
Delimit Scope promise_scope with promise.
Notation "x <- m ;; k" := (then_ m (λ x, k))
  (at level 100, m at next level, right associativity) : promise_scope.
Notation "m ;;; k" := (then_ m (λ _, k))
  (at level 100, right associativity) : promise_scope.
Local Open Scope promise_scope.

(** ** knex queries *)

Definition pop (w : World) : World :=
  mkWorld (db w) (tail (faults w)) (entropy w).

Definition faulty (w : World) : bool :=
  match faults w with
  | true :: _ => true
  | _ => false
  end.

(** Sending one query to the database. *)
Definition query : Promise unit :=
  λ w, (if faulty w then Rejected else Resolved tt, pop w).

(** A fresh random value. *)
Definition random : Promise nat :=
  λ w, (Resolved (entropy w), mkWorld (db w) (faults w) (S (entropy w))).

(** [db("users").where("username", k).first()]. *)
Definition users_first (k : string) : Promise (option UserRow) :=
  query ;;; λ w, (Resolved (users (db w) !! k), w).

(** [db("rooms").where("name", k).first()]. *)
Definition rooms_first (k : string) : Promise (option RoomRow) :=
  query ;;; λ w, (Resolved (rooms (db w) !! k), w).

(** [db("users").where("username", k).update({...})]: the columns are
    set on the row matched, and no row matched is not an error. *)
Definition users_update (k : string) (f : UserRow → UserRow) : Promise unit :=
  query ;;; λ w, (Resolved tt, set_users (alter f k) w).

Definition rooms_update (k : string) (f : RoomRow → RoomRow) : Promise unit :=
  query ;;; λ w, (Resolved tt, set_rooms (alter f k) w).

(** [db("users").insert({...})]: rejected on a primary key already
    present. *)
Definition users_insert (k : string) (row : UserRow) : Promise unit :=
  query ;;; λ w,
    match users (db w) !! k with
    | Some _ => (Rejected, w)
    | None => (Resolved tt, set_users (insert k row) w)
    end.

(** [db("rooms").insert({name, description, publicKey, privateKey})
      .onConflict("name").merge()]: on a conflict the columns given are
    overwritten and the others ([members]) kept. *)
Definition rooms_insert_merge (k : string) (description : option string)
    (publicKey privateKey : bytes) : Promise unit :=
  query ;;; λ w,
    match rooms (db w) !! k with
    | Some old =>
        (Resolved tt,
         set_rooms (insert k (mkRoomRow description (room_members old)
                                publicKey privateKey)) w)
    | None =>
        (Resolved tt,
         set_rooms (insert k (mkRoomRow description [] publicKey privateKey)) w)
    end.

(** [db.transaction(async (trx) => body)]: BEGIN, the body, COMMIT.  When
    the body rejects, knex rolls back: the tables are those of before and
    the promise rejects.  When COMMIT is rejected the promise rejects as
    well, but no ROLLBACK is sent: what the body wrote stays visible to
    the reads that follow. *)
Definition transaction {A} (body : Promise A) : Promise A :=
  λ w, match query w with
       | (Rejected, w0) => (Rejected, w0)
       | (Resolved _, w0) =>
           match body w0 with
           | (Rejected, w1) => (Rejected, set_db (db w) w1)
           | (Resolved a, w1) =>
               match query w1 with
               | (Rejected, w2) => (Rejected, w2)
               | (Resolved _, w2) => (Resolved a, w2)
               end
           end
       end.

(** ** bcrypt and openpgp *)

Class Crypto := {
  (** [bcrypt.hash(password, rounds)], with the salt drawn. *)
  bcrypt_hash : string → nat → nat → string;
  (** [bcrypt.compare(password, hash)]. *)
  bcrypt_compare : string → string → bool;
  (** [openpgp.generateKey] for an RSA key of the given size bound to a
      user id, from the randomness drawn: the binary public and private
      keys, or a failure. *)
  openpgp_generateKey : string → nat → nat → option (bytes * bytes);
  (** [openpgp.readKey({binaryKey})] followed by [key.armor()]. *)
  openpgp_armor : bytes → option string
}.

(** ** Objects handed to callers *)

(** The [UserSession] object: the row read, with [online] made a
    boolean, the legacy key [offline] added and [rooms] made a set. *)
Module Session.
Record t := mk {
  username : string;
  displayName : option string;
  password : string;
  color : string;
  rooms : JSSet.t;
  online : bool;
  offline : bool;
  publicKey : option bytes
}.
End Session.

(** The [Room] object: the row read, with [members] made a set and the
    armored public key added. *)
Module Room.
Record t := mk {
  name : string;
  description : option string;
  members : JSSet.t;
  publicKey : bytes;
  privateKey : bytes;
  armoredPublicKey : string
}.
End Room.

(** ** Interface functions *)

Section Interface.
Context `{Crypto}.

Definition getUserSession (username : string) : Promise (option Session.t) :=
  catch
    (user <- users_first username ;;
     match user with
     | None => resolve None
     | Some user =>
         let online := negb (user_online user =? 0) in
         let offline := negb online in
         resolve (Some (Session.mk username (user_displayName user)
                          (user_password user) (user_color user)
                          (JSSet.of_array (user_rooms user))
                          online offline (user_publicKey user)))
     end)
    None.

(** The result is [true], [false] or [null] ([None]). *)
Definition createUserProfile (username password color : string)
    : Promise (option bool) :=
  catch
    (user <- users_first username ;;
     match user with
     | Some _ => resolve (Some false)
     | None =>
         salt <- random ;;
         catch
           (users_insert username
              (mkUserRow None (bcrypt_hash password 10 salt) color [] 0 None) ;;;
            resolve (Some true))
           None
     end)
    None.

Definition compareUserProfile (username password : string) : Promise bool :=
  catch
    (user <- users_first username ;;
     match user with
     | None => resolve false
     | Some user => resolve (bcrypt_compare password (user_password user))
     end)
    false.

Definition updateUserProfile (username color : string) : Promise bool :=
  catch (users_update username (set_color color) ;;; resolve true) false.

Definition setUserStatus (username : string) (online : bool) : Promise bool :=
  catch (users_update username (set_online online) ;;; resolve true) false.

Definition getRoom (roomname : string) : Promise (option Room.t) :=
  catch
    (room <- rooms_first (toLowerCase roomname) ;;
     match room with
     | None => resolve None
     | Some room =>
         match openpgp_armor (room_publicKey room) with
         | None => reject
         | Some armored =>
             resolve (Some (Room.mk (toLowerCase roomname)
                              (room_description room)
                              (JSSet.of_array (room_members room))
                              (room_publicKey room) (room_privateKey room)
                              armored))
         end
     end)
    None.

Definition addUserToRoom (username roomname : string) : Promise bool :=
  user <- getUserSession username ;;
  match user with
  | None => resolve false
  | Some user =>
      room <- getRoom roomname ;;
      match room with
      | None => resolve false
      | Some room =>
          let user_rooms' := JSSet.add roomname (Session.rooms user) in
          let room_members' := JSSet.add username (Room.members room) in
          catch
            (transaction
               (users_update username
                  (set_user_rooms (JSSet.to_array user_rooms')) ;;;
                rooms_update roomname
                  (set_members (JSSet.to_array room_members'))) ;;;
             resolve true)
            false
      end
  end.

Definition removeUserFromRoom (username roomname : string) : Promise bool :=
  user <- getUserSession username ;;
  match user with
  | None => resolve false
  | Some user =>
      room <- getRoom roomname ;;
      match room with
      | None => resolve false
      | Some room =>
          let user_rooms' := JSSet.delete roomname (Session.rooms user) in
          let room_members' := JSSet.delete username (Room.members room) in
          catch
            (transaction
               (users_update username
                  (set_user_rooms (JSSet.to_array user_rooms')) ;;;
                rooms_update roomname
                  (set_members (JSSet.to_array room_members'))) ;;;
             resolve true)
            false
      end
  end.

(** The loop of [getUserViews] over the rooms of the user. *)
Fixpoint collectViews (roomnames : list string) (viewers : JSSet.t)
    : Promise JSSet.t :=
  match roomnames with
  | [] => resolve viewers
  | roomname :: rest =>
      room <- getRoom roomname ;;
      match room with
      | None => collectViews rest viewers
      | Some room =>
          collectViews rest (JSSet.add_all (Room.members room) viewers)
      end
  end.

Definition getUserViews (username : string) : Promise (option JSSet.t) :=
  user <- getUserSession username ;;
  match user with
  | None => resolve None
  | Some user =>
      viewers <- collectViews (Session.rooms user) JSSet.empty ;;
      resolve (Some viewers)
  end.

Definition existsRoom (roomname : string) : Promise bool :=
  catch
    (room <- rooms_first (toLowerCase roomname) ;;
     resolve (match room with Some _ => true | None => false end))
    true.

Definition createRoom (roomname : string) (description : option string)
    : Promise bool :=
  e <- existsRoom roomname ;;
  if (e : bool) then resolve false
  else
    seed <- random ;;
    match openpgp_generateKey roomname 2048 seed with
    | None => reject
    | Some (publicKey, privateKey) =>
        catch
          (rooms_insert_merge (toLowerCase roomname) description
             publicKey privateKey ;;;
           resolve true)
          false
    end.

Definition setUserPublicKey (username : string) (publicKey : bytes)
    : Promise bool :=
  catch (users_update username (set_publicKey publicKey) ;;; resolve true)
    false.

Definition getUserPublicKey (username : string) : Promise (option bytes) :=
  catch
    (key <- users_first username ;;
     match key with
     | None => resolve None
     | Some key => resolve (user_publicKey key)
     end)
    None.

End Interface.

(** ** Calls made by the gateway *)

Inductive Call :=
  | GetUserSession (username : string)
  | CreateUserProfile (username password color : string)
  | CompareUserProfile (username password : string)
  | UpdateUserProfile (username color : string)
  | SetUserStatus (username : string) (online : bool)
  | AddUserToRoom (username roomname : string)
  | RemoveUserFromRoom (username roomname : string)
  | GetUserViews (username : string)
  | ExistsRoom (roomname : string)
  | CreateRoom (roomname : string) (description : option string)
  | GetRoom (roomname : string)
  | SetUserPublicKey (username : string) (publicKey : bytes)
  | GetUserPublicKey (username : string).

Inductive Result :=
  | RSession (s : option Session.t)
  | RTri (b : option bool)
  | RBool (b : bool)
  | RViews (v : option JSSet.t)
  | RRoom (r : option Room.t)
  | RKey (k : option bytes).

Definition fmap_promise {A B} (f : A → B) (m : Promise A) : Promise B :=
  x <- m ;; resolve (f x).

Definition run `{Crypto} (c : Call) : Promise Result :=
  match c with
  | GetUserSession u => fmap_promise RSession (getUserSession u)
  | CreateUserProfile u p c => fmap_promise RTri (createUserProfile u p c)
  | CompareUserProfile u p => fmap_promise RBool (compareUserProfile u p)
  | UpdateUserProfile u c => fmap_promise RBool (updateUserProfile u c)
  | SetUserStatus u b => fmap_promise RBool (setUserStatus u b)
  | AddUserToRoom u r => fmap_promise RBool (addUserToRoom u r)
  | RemoveUserFromRoom u r => fmap_promise RBool (removeUserFromRoom u r)
  | GetUserViews u => fmap_promise RViews (getUserViews u)
  | ExistsRoom r => fmap_promise RBool (existsRoom r)
  | CreateRoom r d => fmap_promise RBool (createRoom r d)
  | GetRoom r => fmap_promise RRoom (getRoom r)
  | SetUserPublicKey u k => fmap_promise RBool (setUserPublicKey u k)
  | GetUserPublicKey u => fmap_promise RKey (getUserPublicKey u)
  end.

(** The world after a sequence of calls, each awaited before the next;
    a call that rejects leaves the world it reached. *)
Definition exec `{Crypto} (cs : list Call) (w : World) : World :=
  foldl (λ w c, snd (run c w)) w cs.


(** ** Predicates of the specification *)

(** [r ∈ u.rooms], read from the stored row of [u]. *)
Definition in_rooms (t : Tables) (u r : string) : Prop :=
  ∃ row, users t !! u = Some row ∧ r ∈ user_rooms row.

(** [u ∈ r.members], read from the stored row of [r]. *)
Definition in_members (t : Tables) (u r : string) : Prop :=
  ∃ row, rooms t !! r = Some row ∧ u ∈ room_members row.

Definition symmetric (t : Tables) : Prop :=
  ∀ u r, in_rooms t u r ↔ in_members t u r.

(** Room names are stored in lowercase. *)
Definition normalized (t : Tables) : Prop :=
  ∀ k, is_Some (rooms t !! k) → toLowerCase k = k.

(** No query among the next [n] is rejected. *)
Definition calm (n : nat) (w : World) : bool :=
  forallb negb (take n (faults w)).

Definition session_of (username : string) (user : UserRow) : Session.t :=
  Session.mk username (user_displayName user) (user_password user)
    (user_color user) (JSSet.of_array (user_rooms user))
    (negb (user_online user =? 0)) (negb (negb (user_online user =? 0)))
    (user_publicKey user).

Definition room_of `{Crypto} (name : string) (room : RoomRow) : option Room.t :=
  match openpgp_armor (room_publicKey room) with
  | None => None
  | Some armored =>
      Some (Room.mk name (room_description room)
              (JSSet.of_array (room_members room))
              (room_publicKey room) (room_privateKey room) armored)
  end.

(** The tables a call can leave behind, whatever the call. *)
Inductive table_step : Tables → Tables → Prop :=
  | step_none t : table_step t t
  | step_user_insert t u row :
      users t !! u = None →
      table_step t (mkTables (<[u:=row]> (users t)) (rooms t))
  | step_user_alter t u f :
      (∀ row, user_password (f row) = user_password row) →
      (∀ row, user_rooms (f row) = user_rooms row) →
      table_step t (mkTables (alter f u (users t)) (rooms t))
  | step_membership t u rs r ms :
      table_step t (mkTables (alter (set_user_rooms rs) u (users t))
                             (alter (set_members ms) r (rooms t)))
  | step_room_insert t k row :
      rooms t !! k = None → toLowerCase k = k → room_members row = [] →
      table_step t (mkTables (users t) (<[k:=row]> (rooms t))).

(** A call run from [w] resolved to [a] and left the tables [t]; it drew
    no randomness and consumed some of the faults to come. *)
Definition yields {A} (res : Outcome A * World) (w : World) (a : A)
    (t : Tables) : Prop :=
  fst res = Resolved a ∧ db (snd res) = t ∧
  entropy (snd res) = entropy w ∧ faults (snd res) `suffix_of` faults w.

(** The [i]-th query to come is not rejected and reads room [r], whose
    key can be armored: [getRoom r], sent as that query, returns [room]. *)
Definition loads `{Crypto} (w : World) (i : nat) (r : string) (room : Room.t)
    : Prop :=
  faults w !! i ≠ Some true ∧
  rooms (db w) !! toLowerCase r ≫= room_of (toLowerCase r) = Some room.


(** A join or a leave whose room name is in lowercase. *)
Definition lowercase_membership (c : Call) : Prop :=
  match c with
  | AddUserToRoom _ r | RemoveUserFromRoom _ r => toLowerCase r = r
  | _ => False
  end.

(** The tables written by the transaction of [addUserToRoom] and of
    [removeUserFromRoom]. *)
Definition write_membership (u r : string) (rs ms : list string)
    (t : Tables) : Tables :=
  mkTables (alter (set_user_rooms rs) u (users t))
           (alter (set_members ms) r (rooms t)).

(** The tables after [addUserToRoom u r] commits, when both reads
    succeed. *)
Definition join_tables `{Crypto} (u r : string) (t : Tables) : option Tables :=
  user ← users t !! u;
  room ← rooms t !! toLowerCase r ≫= room_of (toLowerCase r);
  Some (write_membership u r
          (JSSet.add r (JSSet.of_array (user_rooms user)))
          (JSSet.add u (Room.members room)) t).

Definition leave_tables `{Crypto} (u r : string) (t : Tables) : option Tables :=
  user ← users t !! u;
  room ← rooms t !! toLowerCase r ≫= room_of (toLowerCase r);
  Some (write_membership u r
          (JSSet.delete r (JSSet.of_array (user_rooms user)))
          (JSSet.delete u (Room.members room)) t).




(** The distinct elements of a list, each at its first occurrence: the
    order in which a [Set] built from the list is iterated. *)
Definition first_occurrences (l : list string) : list string :=
  reverse (remove_dups (reverse l)).




(** The call answered [true]. *)
Definition answered_true (r : Outcome Result) : bool :=
  match r with
  | Resolved (RBool true) | Resolved (RTri (Some true)) => true
  | _ => false
  end.

(** The calls that send no write to the database. *)
Definition read_only (c : Call) : bool :=
  match c with
  | GetUserSession _ | CompareUserProfile _ _ | GetUserViews _
  | ExistsRoom _ | GetRoom _ | GetUserPublicKey _ => true
  | _ => false
  end.

(** Joins and leaves name their room in lowercase; any other call. *)
Definition lowercase_names (c : Call) : Prop :=
  match c with
  | AddUserToRoom _ r | RemoveUserFromRoom _ r => toLowerCase r = r
  | _ => True
  end.

(** ** A concrete world for the examples *)

Module Toy.
#[export] Instance crypto : Crypto := {|
  bcrypt_hash p _ salt := "$2b$" +:+ p;
  bcrypt_compare p h := bool_decide ("$2b$" +:+ p = h);
  openpgp_generateKey _ _ seed := Some ([x99; x01], [x95; x02]);
  openpgp_armor _ := Some "-----BEGIN PGP PUBLIC KEY BLOCK-----"
|}.

Definition user (rs : list string) : UserRow :=
  mkUserRow None "$2b$secret" "red" rs 0 None.

Definition room (ms : list string) : RoomRow :=
  mkRoomRow None ms [x99; x01] [x95; x02].

Definition world (us : list (string * UserRow)) (rs : list (string * RoomRow))
    (fs : list bool) : World :=
  mkWorld (mkTables (list_to_map us) (list_to_map rs)) fs 0.

(** alice, and room general, no edge between them. *)
Definition lobby (fs : list bool) : World :=
  world [("alice", user [])] [("general", room [])] fs.

(** A in rooms x and y, x = {A,B}, y = {A,C}. *)
Definition views (fs : list bool) : World :=
  world [("A", user ["x"; "y"]); ("B", user ["x"]); ("C", user ["y"])]
        [("x", room ["A"; "B"]); ("y", room ["A"; "C"])] fs.

(** A sitting of the gateway. *)
Definition busy : list Call :=
  [CreateUserProfile "bob" "hunter2" "blue"; CreateRoom "Lounge" None;
   AddUserToRoom "bob" "lounge"; SetUserStatus "bob" true;
   RemoveUserFromRoom "alice" "general"; UpdateUserProfile "alice" "green"].

(** bob signs up, then alice and bob join room general. *)
Definition meeting : list Call :=
  [CreateUserProfile "bob" "hunter2" "blue";
   AddUserToRoom "alice" "general"; AddUserToRoom "bob" "general"].




(** An openpgp that generates no key and reads none. *)
Definition no_keys : Crypto := {|
  bcrypt_hash p _ salt := "$2b$" +:+ p;
  bcrypt_compare p h := bool_decide ("$2b$" +:+ p = h);
  openpgp_generateKey _ _ seed := None;
  openpgp_armor _ := None
|}.
End Toy.

(** * Properties *)

(** ** Lowercasing *)

Lemma lower_ascii_idemp c : lower_ascii (lower_ascii c) = lower_ascii c.
Proof. by destruct c as [[] [] [] [] [] [] [] []]. Qed.

Lemma toLowerCase_idemp s : toLowerCase (toLowerCase s) = toLowerCase s.
Proof.
  induction s as [|c s IH]; simpl; [done|].
  by rewrite lower_ascii_idemp, IH.
Qed.




(** ** Sets *)

(** *** bcrypt keys *)







Module JSSetFacts.
Import JSSet.

Lemma elem_of_add y x s : y ∈ add x s ↔ y = x ∨ y ∈ s.
Proof.
  unfold add. case_decide as Hx.
  - split; [by right|]. by intros [->|?].
  - rewrite elem_of_app, list_elem_of_singleton. tauto.
Qed.

Lemma elem_of_delete y x s : y ∈ delete x s ↔ y ≠ x ∧ y ∈ s.
Proof. unfold delete. by rewrite list_elem_of_filter. Qed.

Lemma add_present x s : x ∈ s → add x s = s.
Proof. intros Hx. unfold add. by case_decide. Qed.

Lemma NoDup_add x s : NoDup s → NoDup (add x s).
Proof.
  intros Hs. unfold add. case_decide as Hx; [done|].
  apply NoDup_app. split_and!; [done| |apply NoDup_singleton].
  intros y Hy ->%list_elem_of_singleton. done.
Qed.

Lemma NoDup_delete x s : NoDup s → NoDup (delete x s).
Proof. apply NoDup_filter. Qed.

Lemma delete_absent x s : x ∉ s → delete x s = s.
Proof.
  intros Hx. unfold delete. induction s as [|y s IH]; [done|].
  apply not_elem_of_cons in Hx as [Hne Hx].
  rewrite filter_cons_True by congruence. by rewrite IH.
Qed.

Lemma delete_idemp x s : delete x (delete x s) = delete x s.
Proof. apply delete_absent. rewrite elem_of_delete. tauto. Qed.

Lemma elem_of_add_all y xs s : y ∈ add_all xs s ↔ y ∈ xs ∨ y ∈ s.
Proof.
  unfold add_all. revert s.
  induction xs as [|x xs IH]; intros s; simpl.
  - rewrite elem_of_nil. tauto.
  - rewrite IH, elem_of_add, elem_of_cons. tauto.
Qed.

Lemma NoDup_add_all xs s : NoDup s → NoDup (add_all xs s).
Proof.
  unfold add_all. revert s.
  induction xs as [|x xs IH]; intros s Hs; simpl; [done|].
  by apply IH, NoDup_add.
Qed.

Lemma add_all_fresh xs s : NoDup (s ++ xs) → add_all xs s = s ++ xs.
Proof.
  unfold add_all. revert s.
  induction xs as [|x xs IH]; intros s Hs; simpl.
  - by rewrite app_nil_r.
  - assert (x ∉ s) as Hx.
    { apply NoDup_app in Hs as (_ & Hs & _). intros Hin.
      apply (Hs x Hin). by left. }
    unfold add at 2. case_decide; [done|].
    rewrite IH, <-app_assoc; [done|]. by rewrite <-app_assoc.
Qed.

Lemma elem_of_of_array y xs : y ∈ of_array xs ↔ y ∈ xs.
Proof. unfold of_array. rewrite elem_of_add_all, elem_of_nil. tauto. Qed.

Lemma NoDup_of_array xs : NoDup (of_array xs).
Proof. apply NoDup_add_all, NoDup_nil_2. Qed.

(** Reading back what [Array.from] of a set wrote gives the set. *)
Lemma of_array_NoDup xs : NoDup xs → of_array xs = xs.
Proof. intros Hxs. unfold of_array, empty. by rewrite add_all_fresh. Qed.

Lemma of_array_add x xs :
  add x (of_array (add x (of_array xs))) = add x (of_array xs).
Proof.
  rewrite (of_array_NoDup (add _ _)) by apply NoDup_add, NoDup_of_array.
  apply add_present, elem_of_add. by left.
Qed.

Lemma of_array_delete x xs :
  delete x (of_array (delete x (of_array xs))) = delete x (of_array xs).
Proof.
  rewrite (of_array_NoDup (delete _ _)) by apply NoDup_delete, NoDup_of_array.
  apply delete_idemp.
Qed.
End JSSetFacts.

(** A set built from a list is iterated in the order of the first
    occurrences. *)
Lemma of_array_first_occurrences l :
  JSSet.of_array l = first_occurrences l.
Proof.
  unfold first_occurrences.
  induction l as [|x l IH] using rev_ind; [done|].
  unfold JSSet.of_array, JSSet.add_all in *. rewrite foldl_snoc, IH.
  rewrite reverse_snoc; simpl. unfold JSSet.add.
  assert (x ∈ reverse (remove_dups (reverse l)) ↔ x ∈ reverse l) as Hin.
  { by rewrite elem_of_reverse, elem_of_remove_dups. }
  destruct (decide_rel elem_of x (reverse l)) as [Hx|Hx];
    case_decide as Hx'; try done.
  - by apply Hin in Hx.
  - by apply Hin in Hx'.
  - by rewrite reverse_cons.
Qed.

(** ** What each function computes *)

Lemma calm_S n w : calm (S n) w = negb (faulty w) && calm n (pop w).
Proof.
  unfold calm, faulty, pop; simpl.
  destruct (faults w) as [|[] fs]; simpl; by rewrite ?take_nil.
Qed.

Lemma calm_le n m w : (n ≤ m)%nat → calm m w = true → calm n w = true.
Proof.
  unfold calm. rewrite !forallb_forall. intros Hle Hm b Hb. apply Hm.
  apply list_elem_of_In. apply list_elem_of_In in Hb.
  apply list_elem_of_lookup in Hb as [i Hi].
  apply lookup_take_Some in Hi as [Hi Hlt].
  apply list_elem_of_lookup. exists i. apply lookup_take_Some. split; [done|lia].
Qed.

Lemma calm_quiet n w : true ∉ faults w → calm n w = true.
Proof.
  intros Hf. unfold calm. apply forallb_forall. intros [] Hb; [|done].
  exfalso. apply Hf. apply list_elem_of_In in Hb.
  apply list_elem_of_lookup in Hb as [i Hi].
  apply lookup_take_Some in Hi as [Hi _]. by eapply list_elem_of_lookup_2.
Qed.

Lemma calm_faulty n w : calm (S n) w = true → faulty w = false.
Proof. rewrite calm_S. by destruct (faulty w). Qed.

Lemma forallb_negb_false (l : list bool) : forallb negb l = false ↔ true ∈ l.
Proof.
  induction l as [|[] l IH]; simpl.
  - rewrite elem_of_nil. split; [done|tauto].
  - split; [intros _; by left|done].
  - rewrite IH, elem_of_cons. split; [by right|by intros [?|?]].
Qed.

Lemma calm_false n w :
  calm n w = false ↔ ∃ i, (i < n)%nat ∧ faults w !! i = Some true.
Proof.
  unfold calm. rewrite forallb_negb_false, list_elem_of_lookup.
  split.
  - intros [i Hi]. apply lookup_take_Some in Hi as [Hi Hlt]. eauto.
  - intros (i & Hlt & Hi). exists i. by apply lookup_take_Some.
Qed.

(** Unfolding of the queries and of the promise combinators. *)
Ltac unfold_promise :=
  unfold users_first, rooms_first, users_update, rooms_update, users_insert,
    rooms_insert_merge;
  unfold catch, then_, query, random, resolve, reject; simpl.

Section Facts.
Context `{Crypto}.

Lemma getUserSession_run u w :
  getUserSession u w =
    (Resolved (if faulty w then None
               else session_of u <$> users (db w) !! u), pop w).
Proof.
  unfold getUserSession. unfold_promise.
  destruct (faulty w); simpl; [done|].
  by destruct (users (db w) !! u).
Qed.

Lemma getRoom_run r w :
  getRoom r w =
    (Resolved (if faulty w then None
               else rooms (db w) !! toLowerCase r
                      ≫= room_of (toLowerCase r)), pop w).
Proof.
  unfold getRoom, room_of. unfold_promise.
  destruct (faulty w); simpl; [done|].
  destruct (rooms (db w) !! toLowerCase r) as [row|]; simpl; [|done].
  by destruct (openpgp_armor (room_publicKey row)).
Qed.

Lemma existsRoom_run r w :
  existsRoom r w =
    (Resolved (if faulty w then true
               else bool_decide (is_Some (rooms (db w) !! toLowerCase r))),
     pop w).
Proof.
  unfold existsRoom. unfold_promise.
  destruct (faulty w); simpl; [done|].
  by destruct (rooms (db w) !! toLowerCase r).
Qed.

Lemma compareUserProfile_run u p w :
  compareUserProfile u p w =
    (Resolved (if faulty w then false
               else match users (db w) !! u with
                    | None => false
                    | Some row => bcrypt_compare p (user_password row)
                    end), pop w).
Proof.
  unfold compareUserProfile. unfold_promise.
  destruct (faulty w); simpl; [done|].
  by destruct (users (db w) !! u).
Qed.

Lemma getUserPublicKey_run u w :
  getUserPublicKey u w =
    (Resolved (if faulty w then None
               else users (db w) !! u ≫= user_publicKey), pop w).
Proof.
  unfold getUserPublicKey. unfold_promise.
  destruct (faulty w); simpl; [done|].
  by destruct (users (db w) !! u).
Qed.

(** The three single-column updates. *)
Lemma users_update_run u f w :
  catch (users_update u f ;;; resolve true) false w =
    if faulty w then (Resolved false, pop w)
    else (Resolved true, set_users (alter f u) (pop w)).
Proof.
  unfold_promise.
  by destruct (faulty w).
Qed.

Lemma createUserProfile_run u p c w :
  createUserProfile u p c w =
    if faulty w then (Resolved None, pop w)
    else match users (db w) !! u with
         | Some _ => (Resolved (Some false), pop w)
         | None =>
             let w1 := mkWorld (db w) (tail (faults w)) (S (entropy w)) in
             if faulty w1 then (Resolved None, pop w1)
             else (Resolved (Some true),
                   set_users
                     (insert u (mkUserRow None (bcrypt_hash p 10 (entropy w))
                                  c [] 0 None)) (pop w1))
         end.
Proof.
  unfold createUserProfile. unfold_promise.
  destruct (faulty w); simpl; [done|].
  destruct (users (db w) !! u) eqn:Hu; simpl; [done|].
  match goal with |- context [faulty ?x] => destruct (faulty x) end;
    simpl; [done|].
  by rewrite Hu.
Qed.

Lemma createRoom_run r d w :
  createRoom r d w =
    if faulty w then (Resolved false, pop w)
    else match rooms (db w) !! toLowerCase r with
         | Some _ => (Resolved false, pop w)
         | None =>
             let w1 := mkWorld (db w) (tail (faults w)) (S (entropy w)) in
             match openpgp_generateKey r 2048 (entropy w) with
             | None => (Rejected, w1)
             | Some (pub, priv) =>
                 if faulty w1 then (Resolved false, pop w1)
                 else (Resolved true,
                       set_rooms
                         (insert (toLowerCase r) (mkRoomRow d [] pub priv))
                         (pop w1))
             end
         end.
Proof.
  unfold createRoom. unfold then_ at 1. rewrite existsRoom_run.
  destruct (faulty w); simpl; [done|].
  destruct (rooms (db w) !! toLowerCase r) eqn:Hr; simpl; [done|].
  unfold_promise.
  destruct (openpgp_generateKey r 2048 (entropy w)) as [[pub priv]|];
    [|done].
  unfold_promise.
  match goal with |- context [faulty ?x] => destruct (faulty x) end;
    simpl; [done|].
  by rewrite Hr.
Qed.

Ltac solve_suffix :=
  simpl; repeat (first [ apply suffix_nil | reflexivity | apply suffix_cons_r ]).

Lemma suffix_tail {A} (l : list A) : tail l `suffix_of` l.
Proof. destruct l; [done|]. by apply suffix_cons_r. Qed.

Lemma yields_pop {A} (a : A) w : yields (Resolved a, pop w) w a (db w).
Proof. split_and!; [done..|apply suffix_tail]. Qed.

Lemma yields_after_pop {A} (res : Outcome A * World) w a t :
  yields res (pop w) a t → yields res w a t.
Proof.
  intros (? & ? & ? & ?). split_and!; [done..|].
  etrans; [done|apply suffix_tail].
Qed.

(** The transaction of [addUserToRoom] and [removeUserFromRoom]: four
    queries (BEGIN, two updates, COMMIT); it resolves when the four go
    through, and the tables are written when the first three do. *)
Lemma membership_transaction_run u r rs ms w :
  yields
    (catch
       (transaction
          (users_update u (set_user_rooms rs) ;;;
           rooms_update r (set_members ms)) ;;;
        resolve true)
       false w)
    w (calm 4 w)
    (if calm 3 w then write_membership u r rs ms (db w) else db w).
Proof.
  destruct w as [t fs e]. unfold yields, transaction. unfold_promise.
  unfold calm, faulty, write_membership; simpl.
  destruct fs as [|[] [|[] [|[] [|[] fs]]]]; simpl;
    split_and!; try done; solve_suffix.
Qed.

Ltac membership_run w :=
  unfold then_ at 1; rewrite getUserSession_run;
  rewrite (calm_S 5 w), (calm_S 4 (pop w)), (calm_S 4 w), (calm_S 3 (pop w));
  destruct (faulty _) eqn:Hf1; simpl;
    [ repeat case_match; apply yields_pop |];
  destruct (users _ !! _) as [urow|] eqn:Hu; simpl; [|apply yields_pop];
  apply yields_after_pop;
  unfold then_ at 1; rewrite getRoom_run;
  destruct (faulty (pop _)) eqn:Hf2; simpl;
    [ repeat case_match; apply (yields_pop false (pop _)) |];
  destruct (_ ≫= room_of _) as [room|] eqn:Hr; simpl;
    [|apply (yields_pop false (pop _))];
  apply yields_after_pop;
  match goal with
  | |- context [catch ?m false ?w'] =>
      match m with
      | context [users_update ?u (set_user_rooms ?rs)] =>
          match m with
          | context [rooms_update ?r (set_members ?ms)] =>
              apply (membership_transaction_run u r rs ms w')
          end
      end
  end.

Lemma addUserToRoom_run u r w :
  yields (addUserToRoom u r w) w
    (match join_tables u r (db w) with
     | Some _ => calm 6 w
     | None => false
     end)
    (match join_tables u r (db w) with
     | Some t' => if calm 5 w then t' else db w
     | None => db w
     end).
Proof. unfold addUserToRoom, join_tables. membership_run w. Qed.

Lemma removeUserFromRoom_run u r w :
  yields (removeUserFromRoom u r w) w
    (match leave_tables u r (db w) with
     | Some _ => calm 6 w
     | None => false
     end)
    (match leave_tables u r (db w) with
     | Some t' => if calm 5 w then t' else db w
     | None => db w
     end).
Proof. unfold removeUserFromRoom, leave_tables. membership_run w. Qed.

Lemma faulty_lookup w : faulty w = true ↔ faults w !! 0%nat = Some true.
Proof.
  unfold faulty. destruct (faults w) as [|[] fs]; simpl; split; congruence.
Qed.

Lemma faults_pop w i : faults (pop w) !! i = faults w !! S i.
Proof. unfold pop; simpl. by destruct (faults w). Qed.

Lemma collectViews_run roomnames :
  ∀ viewers w, ∃ V,
    yields (collectViews roomnames viewers w) w V (db w) ∧
    (NoDup viewers → NoDup V) ∧
    ∀ v, v ∈ V ↔
      v ∈ viewers ∨
      ∃ i r room, roomnames !! i = Some r ∧ loads w i r room ∧
                  v ∈ Room.members room.
Proof.
  induction roomnames as [|r rest IH]; intros viewers w; simpl.
  - exists viewers. split_and!; [by split_and!|done|].
    intros v. split; [by left|]. intros [?|(i & ? & ? & [=] & _)]; done.
  - unfold then_ at 1. rewrite getRoom_run.
    set (got := if faulty w then None else _).
    destruct got as [room|] eqn:Hgot; subst got.
    + assert (loads w 0 r room) as Hload.
      { destruct (faulty w) eqn:Hf; [done|]. split; [|done].
        intros Hi%faulty_lookup. congruence. }
      destruct (IH (JSSet.add_all (Room.members room) viewers) (pop w))
        as (V & Hy & Hnd & HV).
      exists V. split_and!.
      * by apply yields_after_pop.
      * intros Hv. by apply Hnd, JSSetFacts.NoDup_add_all.
      * intros v. rewrite HV, JSSetFacts.elem_of_add_all. split.
        -- intros [[Hv|Hv]|(i & r' & room' & Hi & [Hq Hl] & Hv)].
           ++ right. by exists 0%nat, r, room.
           ++ by left.
           ++ right. exists (S i), r', room'. split_and!; [done| |done].
              split; [by rewrite <-faults_pop|done].
        -- intros [Hv|(i & r' & room' & Hi & [Hq Hl] & Hv)]; [by left; right|].
           destruct i as [|i]; simpl in Hi.
           ++ injection Hi as <-. destruct Hload as [_ Hl'].
              rewrite Hl in Hl'. injection Hl' as <-. by left; left.
           ++ right. exists i, r', room'. split_and!; [done| |done].
              split; [by rewrite faults_pop|done].
    + destruct (IH viewers (pop w)) as (V & Hy & Hnd & HV).
      exists V. split_and!; [by apply yields_after_pop|done|].
      intros v. rewrite HV. split.
      * intros [Hv|(i & r' & room' & Hi & [Hq Hl] & Hv)]; [by left|].
        right. exists (S i), r', room'. split_and!; [done| |done].
        split; [by rewrite <-faults_pop|done].
      * intros [Hv|(i & r' & room' & Hi & [Hq Hl] & Hv)]; [by left|].
        destruct i as [|i]; simpl in Hi.
        -- injection Hi as <-. exfalso.
           destruct (faulty w) eqn:Hf.
           ++ by apply Hq, faulty_lookup.
           ++ simpl in Hl. congruence.
        -- right. exists i, r', room'. split_and!; [done| |done].
           split; [by rewrite faults_pop|done].
Qed.

Lemma getUserViews_run u w :
  ∃ V, yields (getUserViews u w) w
         (if faulty w then None else
            match users (db w) !! u with
            | None => None
            | Some _ => Some V
            end)
         (db w) ∧
       NoDup V ∧
       ∀ row, users (db w) !! u = Some row →
         ∀ v, v ∈ V ↔
           ∃ i r room, JSSet.of_array (user_rooms row) !! i = Some r ∧
                       loads (pop w) i r room ∧ v ∈ Room.members room.
Proof.
  unfold getUserViews. unfold then_ at 1. rewrite getUserSession_run.
  destruct (users (db w) !! u) as [row|] eqn:Hu; simpl.
  - destruct (collectViews_run (JSSet.of_array (user_rooms row))
                JSSet.empty (pop w)) as (V & Hy & Hnd & HV).
    exists V. split_and!.
    + destruct (faulty w); [apply yields_pop|].
      apply yields_after_pop. simpl. unfold then_, resolve.
      destruct Hy as (Hres & Hdb & Hent & Hsuf).
      destruct (collectViews _ _ _) as [[V'|] w']; simpl in *; [|done].
      injection Hres as ->. by split_and!.
    + apply Hnd, NoDup_nil_2.
    + intros row' [= <-] v. rewrite HV. unfold JSSet.empty.
      rewrite elem_of_nil. tauto.
  - exists []. split_and!; [|apply NoDup_nil_2|done].
    destruct (faulty w); apply yields_pop.
Qed.

(** *** The tables after a call *)

Lemma snd_fmap_promise {A B} (f : A → B) (m : Promise A) w :
  snd (fmap_promise f m w) = snd (m w).
Proof. unfold fmap_promise, then_, resolve. by destruct (m w) as [[] ?]. Qed.

Lemma fst_fmap_promise {A B} (f : A → B) (m : Promise A) w a :
  fst (m w) = Resolved a → fst (fmap_promise f m w) = Resolved (f a).
Proof.
  unfold fmap_promise, then_, resolve.
  destruct (m w) as [[] ?]; simpl; congruence.
Qed.

Lemma users_update_step u f w :
  (∀ row, user_password (f row) = user_password row) →
  (∀ row, user_rooms (f row) = user_rooms row) →
  table_step (db w)
    (db (snd (catch (users_update u f ;;; resolve true) false w))).
Proof.
  intros Hp Hr. rewrite users_update_run.
  destruct (faulty w); simpl; [constructor|]. by apply step_user_alter.
Qed.

Lemma run_step c w : table_step (db w) (db (snd (run c w))).
Proof.
  destruct c as [u|u p c|u p|u c|u b|u r|u r|u|r|r d|r|u k|u];
    unfold run; rewrite snd_fmap_promise.
  - rewrite getUserSession_run. constructor.
  - rewrite createUserProfile_run.
    destruct (faulty w); simpl; [constructor|].
    destruct (users (db w) !! u) eqn:Hu; simpl; [constructor|].
    case_match; simpl; [constructor|]. by apply step_user_insert.
  - rewrite compareUserProfile_run. constructor.
  - by apply users_update_step.
  - by apply users_update_step.
  - destruct (addUserToRoom_run u r w) as (_ & -> & _).
    unfold join_tables.
    destruct (users (db w) !! u); simpl; [|constructor].
    destruct (_ ≫= room_of _); simpl; [|constructor].
    destruct (calm 5 w); constructor.
  - destruct (removeUserFromRoom_run u r w) as (_ & -> & _).
    unfold leave_tables.
    destruct (users (db w) !! u); simpl; [|constructor].
    destruct (_ ≫= room_of _); simpl; [|constructor].
    destruct (calm 5 w); constructor.
  - destruct (getUserViews_run u w) as (V & (_ & -> & _) & _). constructor.
  - rewrite existsRoom_run. constructor.
  - rewrite createRoom_run.
    destruct (faulty w); simpl; [constructor|].
    destruct (rooms (db w) !! toLowerCase r) eqn:Hr; simpl; [constructor|].
    destruct (openpgp_generateKey _ _ _) as [[pub priv]|]; simpl;
      [|constructor].
    case_match; simpl; [constructor|].
    apply step_room_insert; [done|apply toLowerCase_idemp|done].
  - rewrite getRoom_run. constructor.
  - by apply users_update_step.
  - rewrite getUserPublicKey_run. constructor.
Qed.

Lemma exec_steps cs w : rtc table_step (db w) (db (exec cs w)).
Proof.
  unfold exec. revert w.
  induction cs as [|c cs IH]; intros w; simpl; [done|].
  eapply rtc_l; [apply run_step|apply IH].
Qed.

End Facts.

(** *** What no call changes *)

Lemma table_step_keys t t' k row :
  table_step t t' → rooms t !! k = Some row →
  ∃ row', rooms t' !! k = Some row' ∧
          room_publicKey row' = room_publicKey row ∧
          room_privateKey row' = room_privateKey row.
Proof.
  intros Hstep Hk. destruct Hstep as [t|t u urow Hu|t u f _ _|t u rs r ms
                                     |t k' row' Hk' _ _]; simpl; eauto.
  - rewrite lookup_alter. case_decide as Hrk; [subst r|eauto].
    rewrite Hk; simpl. eauto.
  - rewrite lookup_insert_ne by congruence. eauto.
Qed.


Lemma table_step_normalized t t' :
  table_step t t' → normalized t → normalized t'.
Proof.
  intros Hstep Hn. destruct Hstep as [t|t u' urow Hu'|t u' f _ _|t u' rs r ms
                                     |t k' row' Hk' Hlow _]; simpl; try done.
  - intros k Hk. simpl in Hk. apply lookup_alter_is_Some in Hk. by apply Hn.
  - intros k Hk. simpl in Hk. apply lookup_insert_is_Some in Hk as [<-|[_ Hk]].
    + done.
    + by apply Hn.
Qed.

Lemma steps_keys t t' k row :
  rtc table_step t t' → rooms t !! k = Some row →
  ∃ row', rooms t' !! k = Some row' ∧
          room_publicKey row' = room_publicKey row ∧
          room_privateKey row' = room_privateKey row.
Proof.
  intros Hsteps. revert row.
  induction Hsteps as [t|t t1 t' Hstep _ IH]; intros row Hk; [eauto|].
  destruct (table_step_keys _ _ _ _ Hstep Hk) as (row1 & Hk1 & Hpub & Hpriv).
  destruct (IH _ Hk1) as (row' & Hk' & Hpub' & Hpriv').
  exists row'. split_and!; congruence.
Qed.


Lemma steps_normalized t t' :
  rtc table_step t t' → normalized t → normalized t'.
Proof.
  induction 1 as [|t t1 t' Hstep _ IH]; [done|].
  intros Hn. by apply IH, (table_step_normalized t).
Qed.

(** ** The claims of the specification *)

Section Claims.
Context `{Crypto}.

(** *** getUserSession *)

Lemma getUserSession_existing u w row :
  faulty w = false → users (db w) !! u = Some row →
  fst (getUserSession u w) = Resolved (Some (session_of u row)).
Proof. intros Hf Hu. by rewrite getUserSession_run, Hf, Hu. Qed.

(** C10 — every record returned by [getUserSession] carries a field
    [offline] that is the negation of its boolean field [online]; the
    record is that of a stored user, and [online] is true exactly when
    the stored column is not zero. *)
Theorem getUserSession_offline u w s :
  fst (getUserSession u w) = Resolved (Some s) →
  Session.offline s = negb (Session.online s) ∧
  ∃ row, users (db w) !! u = Some row ∧
         Session.online s = negb (user_online row =? 0).
Proof.
  rewrite getUserSession_run; simpl. destruct (faulty w); [done|].
  destruct (users (db w) !! u) as [row|]; simpl; [|done].
  intros [= <-]. split; [done|]. by exists row.
Qed.

(** *** existsRoom *)




(** *** addUserToRoom and removeUserFromRoom *)

Lemma write_membership_twice u r rs ms t :
  write_membership u r rs ms (write_membership u r rs ms t)
  = write_membership u r rs ms t.
Proof.
  unfold write_membership; simpl. f_equal; apply map_eq; intros k;
    rewrite !lookup_alter; repeat case_decide; try done;
    by destruct (_ !! _).
Qed.

Lemma join_tables_again u r t t1 :
  join_tables u r t = Some t1 → join_tables u r t1 = Some t1.
Proof.
  unfold join_tables, room_of.
  destruct (users t !! u) as [urow|] eqn:Hu; simpl; [|done].
  destruct (rooms t !! toLowerCase r) as [rrow|] eqn:Hr; simpl; [|done].
  destruct (openpgp_armor (room_publicKey rrow)) eqn:Ha; simpl; [|done].
  intros [= <-]. simpl. rewrite lookup_alter_eq, Hu; simpl.
  rewrite lookup_alter. case_decide as Hlow.
  - rewrite <-Hlow in Hr. rewrite Hr; simpl. rewrite Ha; simpl.
    by rewrite !JSSetFacts.of_array_add, write_membership_twice.
  - rewrite Hr; simpl. rewrite Ha; simpl.
    by rewrite JSSetFacts.of_array_add, write_membership_twice.
Qed.

Lemma leave_tables_again u r t t1 :
  leave_tables u r t = Some t1 → leave_tables u r t1 = Some t1.
Proof.
  unfold leave_tables, room_of.
  destruct (users t !! u) as [urow|] eqn:Hu; simpl; [|done].
  destruct (rooms t !! toLowerCase r) as [rrow|] eqn:Hr; simpl; [|done].
  destruct (openpgp_armor (room_publicKey rrow)) eqn:Ha; simpl; [|done].
  intros [= <-]. simpl. rewrite lookup_alter_eq, Hu; simpl.
  rewrite lookup_alter. case_decide as Hlow.
  - rewrite <-Hlow in Hr. rewrite Hr; simpl. rewrite Ha; simpl.
    by rewrite !JSSetFacts.of_array_delete, write_membership_twice.
  - rewrite Hr; simpl. rewrite Ha; simpl.
    by rewrite JSSetFacts.of_array_delete, write_membership_twice.
Qed.

(** After a join that answered [true], a second one changes nothing,
    whatever faults it meets. *)
Lemma addUserToRoom_again u r w w1 :
  addUserToRoom u r w = (Resolved true, w1) →
  db (snd (addUserToRoom u r w1)) = db w1.
Proof.
  intros Hrun. destruct (addUserToRoom_run u r w) as (Hres & Hdb & _).
  rewrite Hrun in Hres, Hdb; simpl in *.
  destruct (join_tables u r (db w)) as [t1|] eqn:Hj; [|done].
  injection Hres as Hc. symmetry in Hc. apply (calm_le 5) in Hc; [|lia].
  rewrite Hc in Hdb. subst t1.
  apply join_tables_again in Hj.
  destruct (addUserToRoom_run u r w1) as (_ & -> & _).
  rewrite Hj. by case_match.
Qed.

Lemma removeUserFromRoom_again u r w w1 :
  removeUserFromRoom u r w = (Resolved true, w1) →
  db (snd (removeUserFromRoom u r w1)) = db w1.
Proof.
  intros Hrun. destruct (removeUserFromRoom_run u r w) as (Hres & Hdb & _).
  rewrite Hrun in Hres, Hdb; simpl in *.
  destruct (leave_tables u r (db w)) as [t1|] eqn:Hj; [|done].
  injection Hres as Hc. symmetry in Hc. apply (calm_le 5) in Hc; [|lia].
  rewrite Hc in Hdb. subst t1.
  apply leave_tables_again in Hj.
  destruct (removeUserFromRoom_run u r w1) as (_ & -> & _).
  rewrite Hj. by case_match.
Qed.

(** C5 — when no query is rejected, calling [addUserToRoom u r] twice
    leaves the same tables as calling it once, and so does calling
    [removeUserFromRoom u r] twice, whether or not the edge, the user
    or the room exist. *)
Theorem membership_idempotent u r w :
  true ∉ faults w →
  db (exec [AddUserToRoom u r; AddUserToRoom u r] w)
    = db (exec [AddUserToRoom u r] w) ∧
  db (exec [RemoveUserFromRoom u r; RemoveUserFromRoom u r] w)
    = db (exec [RemoveUserFromRoom u r] w).
Proof.
  intros Hq. unfold exec; simpl. rewrite !snd_fmap_promise. split.
  - destruct (addUserToRoom_run u r w) as (Hres & Hdb & _ & Hsuf).
    rewrite (calm_quiet 6 w Hq) in Hres. rewrite (calm_quiet 5 w Hq) in Hdb.
    destruct (join_tables u r (db w)) as [t1|] eqn:Hj.
    + apply (addUserToRoom_again u r w).
      by destruct (addUserToRoom u r w) as [[] ?]; simpl in *; simplify_eq.
    + destruct (addUserToRoom_run u r (snd (addUserToRoom u r w)))
        as (_ & -> & _).
      rewrite Hdb, Hj. done.
  - destruct (removeUserFromRoom_run u r w) as (Hres & Hdb & _ & Hsuf).
    rewrite (calm_quiet 6 w Hq) in Hres. rewrite (calm_quiet 5 w Hq) in Hdb.
    destruct (leave_tables u r (db w)) as [t1|] eqn:Hj.
    + apply (removeUserFromRoom_again u r w).
      by destruct (removeUserFromRoom u r w) as [[] ?]; simpl in *;
        simplify_eq.
    + destruct (removeUserFromRoom_run u r (snd (removeUserFromRoom u r w)))
        as (_ & -> & _).
      rewrite Hdb, Hj. done.
Qed.

(** *** addUserToRoom *)

Lemma calm_5_commit w :
  calm 5 w = true → faults w !! 5%nat = Some true → calm 6 w = false.
Proof. intros _ Hf. apply calm_false. exists 5%nat. split; [lia|done]. Qed.


(** *** createUserProfile and compareUserProfile *)

Lemma createUserProfile_fresh u p c w :
  users (db w) !! u = None → calm 2 w = true →
  createUserProfile u p c w =
    (Resolved (Some true),
     mkWorld
       (mkTables
          (<[u:=mkUserRow None (bcrypt_hash p 10 (entropy w)) c [] 0 None]>
             (users (db w)))
          (rooms (db w)))
       (tail (tail (faults w))) (S (entropy w))).
Proof.
  intros Hu Hc. rewrite createUserProfile_run, Hu.
  rewrite calm_S in Hc. apply andb_true_iff in Hc as [Hf1 Hc].
  apply negb_true_iff in Hf1. rewrite Hf1; simpl.
  apply calm_faulty in Hc. unfold faulty, pop in *; simpl in *.
  by rewrite Hc.
Qed.

Lemma createUserProfile_true u p c w w1 :
  createUserProfile u p c w = (Resolved (Some true), w1) →
  users (db w) !! u = None ∧
  users (db w1) !! u
    = Some (mkUserRow None (bcrypt_hash p 10 (entropy w)) c [] 0 None).
Proof.
  rewrite createUserProfile_run. destruct (faulty w); [done|].
  destruct (users (db w) !! u); [done|]. simpl.
  case_match; [done|]. intros [= <-]; simpl.
  by rewrite lookup_insert_eq.
Qed.

(** C6 — for a username not yet stored and with no query rejected, the
    first [createUserProfile] answers [true] and stores a row with the
    hash of the password, [rooms] empty and [online] false; a second
    call for that username answers [false] ([null] when its read is
    rejected) and leaves the tables, hence the stored hash, as they
    were. *)
Theorem createUserProfile_twice u p c p' c' w :
  users (db w) !! u = None → calm 2 w = true →
  ∃ w1 row,
    createUserProfile u p c w = (Resolved (Some true), w1) ∧
    users (db w1) !! u = Some row ∧
    user_password row = bcrypt_hash p 10 (entropy w) ∧
    user_rooms row = [] ∧ user_online row = 0 ∧
    Session.rooms (session_of u row) = JSSet.empty ∧
    Session.online (session_of u row) = false ∧
    fst (createUserProfile u p' c' w1)
      = Resolved (if faulty w1 then None else Some false) ∧
    db (snd (createUserProfile u p' c' w1)) = db w1.
Proof.
  intros Hu Hc. eexists _, _. split; [by apply createUserProfile_fresh|].
  simpl. rewrite lookup_insert_eq. split_and!; try done.
  - rewrite createUserProfile_run; simpl. rewrite lookup_insert_eq.
    by case_match.
  - rewrite createUserProfile_run; simpl. rewrite lookup_insert_eq.
    by case_match.
Qed.


(** *** createRoom *)

Lemma createRoom_true r d w w1 :
  createRoom r d w = (Resolved true, w1) →
  ∃ pub priv,
    openpgp_generateKey r 2048 (entropy w) = Some (pub, priv) ∧
    rooms (db w) !! toLowerCase r = None ∧
    rooms (db w1) !! toLowerCase r = Some (mkRoomRow d [] pub priv).
Proof.
  rewrite createRoom_run. destruct (faulty w); [done|].
  destruct (rooms (db w) !! toLowerCase r); [done|]. simpl.
  destruct (openpgp_generateKey _ _ _) as [[pub priv]|]; [|done].
  case_match; [done|]. intros [= <-]; simpl.
  exists pub, priv. by rewrite lookup_insert_eq.
Qed.

Lemma createRoom_existing r d w :
  is_Some (rooms (db w) !! toLowerCase r) →
  createRoom r d w = (Resolved false, pop w).
Proof.
  intros [row Hrow]. rewrite createRoom_run, Hrow. by destruct (faulty w).
Qed.

(** C4 — once [createRoom r] has answered [true], the room holds the key
    pair generated for it; after any calls, a [createRoom] for a name
    equal to [r] up to case answers [false] and leaves the tables as
    they were, and the stored keys are still the generated ones. *)
Theorem createRoom_keys_fixed r d w w1 cs r' d' :
  createRoom r d w = (Resolved true, w1) →
  toLowerCase r' = toLowerCase r →
  ∃ pub priv row,
    openpgp_generateKey r 2048 (entropy w) = Some (pub, priv) ∧
    rooms (db w1) !! toLowerCase r = Some (mkRoomRow d [] pub priv) ∧
    fst (createRoom r' d' (exec cs w1)) = Resolved false ∧
    db (snd (createRoom r' d' (exec cs w1))) = db (exec cs w1) ∧
    rooms (db (snd (createRoom r' d' (exec cs w1)))) !! toLowerCase r
      = Some row ∧
    room_publicKey row = pub ∧ room_privateKey row = priv.
Proof.
  intros Hcreate Hlow.
  apply createRoom_true in Hcreate as (pub & priv & Hgen & _ & Hrow).
  destruct (steps_keys _ _ _ _ (exec_steps cs w1) Hrow)
    as (row & Hrow' & Hpub & Hpriv).
  exists pub, priv, row. rewrite createRoom_existing by (rewrite Hlow; eauto).
  by split_and!.
Qed.

(** *** getUserViews *)

(** C8 — [getUserViews] answers [null] exactly when the user is not
    stored or the read of the user is rejected.  Otherwise it answers a
    set without repetition that holds [v] exactly when [v] is in the
    stored members of a room that is named in the stored rooms of the
    user and that loads: the query that reads it (the [i]-th distinct
    name is read by the query after the [i]-th) is not rejected, the
    room is stored under the lowercase of the name, and its key can be
    armored.  A room that does not load is skipped. *)
Theorem getUserViews_union u w :
  match users (db w) !! u with
  | None => fst (getUserViews u w) = Resolved None
  | Some row =>
      if faulty w then fst (getUserViews u w) = Resolved None
      else
        ∃ V, fst (getUserViews u w) = Resolved (Some V) ∧ NoDup V ∧
             ∀ v, v ∈ V ↔
               ∃ i r rrow,
                 first_occurrences (user_rooms row) !! i = Some r ∧
                 faults w !! S i ≠ Some true ∧
                 rooms (db w) !! toLowerCase r = Some rrow ∧
                 is_Some (openpgp_armor (room_publicKey rrow)) ∧
                 v ∈ room_members rrow
  end.
Proof.
  destruct (getUserViews_run u w) as (V & (Hres & _) & Hnd & HV).
  destruct (users (db w) !! u) as [row|] eqn:Hu; [|by destruct (faulty w)].
  destruct (faulty w) eqn:Hf; [done|].
  exists V. split_and!; [done..|].
  intros v. rewrite (HV row eq_refl), of_array_first_occurrences. split.
  - intros (i & r & room & Hi & [Hq Hload] & Hv).
    rewrite faults_pop in Hq. simpl in Hload. unfold room_of in Hload.
    destruct (rooms (db w) !! toLowerCase r) as [rrow|] eqn:Hr; [|done].
    simpl in Hload.
    destruct (openpgp_armor (room_publicKey rrow)) eqn:Ha; [|done].
    injection Hload as <-. simpl in Hv.
    rewrite JSSetFacts.elem_of_of_array in Hv.
    exists i, r, rrow. rewrite Ha. eauto 10.
  - intros (i & r & rrow & Hi & Hq & Hr & [a Ha] & Hv).
    eexists i, r, _. split; [done|]. split.
    + split; [by rewrite faults_pop|].
      simpl. rewrite Hr; simpl. unfold room_of. by rewrite Ha.
    + simpl. by apply JSSetFacts.elem_of_of_array.
Qed.

End Claims.

(** ** Membership symmetry *)

Lemma in_rooms_write u r rs ms t u' r' :
  in_rooms (write_membership u r rs ms t) u' r' ↔
  if decide (u = u') then is_Some (users t !! u) ∧ r' ∈ rs
  else in_rooms t u' r'.
Proof.
  unfold in_rooms, write_membership; simpl. rewrite lookup_alter.
  case_decide as Hu; [|done]. split.
  - intros (row & Hrow & Hin).
    destruct (users t !! u) as [urow|]; simpl in *; [|done].
    injection Hrow as <-. eauto.
  - intros [[urow Hrow] Hin]. rewrite Hrow; simpl. eauto.
Qed.

Lemma in_members_write u r rs ms t u' r' :
  in_members (write_membership u r rs ms t) u' r' ↔
  if decide (r = r') then is_Some (rooms t !! r) ∧ u' ∈ ms
  else in_members t u' r'.
Proof.
  unfold in_members, write_membership; simpl. rewrite lookup_alter.
  case_decide as Hr; [|done]. split.
  - intros (row & Hrow & Hin).
    destruct (rooms t !! r) as [rrow|]; simpl in *; [|done].
    injection Hrow as <-. eauto.
  - intros [[rrow Hrow] Hin]. rewrite Hrow; simpl. eauto.
Qed.

Section Consequences.
Context `{Crypto}.

Lemma edge_sides u r t urow rrow :
  symmetric t → users t !! u = Some urow → rooms t !! r = Some rrow →
  (∀ r', r' ∈ user_rooms urow ↔ in_members t u r') ∧
  (∀ u', in_rooms t u' r ↔ u' ∈ room_members rrow).
Proof.
  intros Hsym Hu Hr. split.
  - intros r'. rewrite <-(Hsym u r'). unfold in_rooms. rewrite Hu.
    split; [eauto|]. by intros (? & [= <-] & ?).
  - intros u'. rewrite (Hsym u' r). unfold in_members. rewrite Hr.
    split; [|eauto]. by intros (? & [= <-] & ?).
Qed.

Lemma join_tables_symmetric u r t t' :
  toLowerCase r = r → join_tables u r t = Some t' →
  symmetric t → symmetric t'.
Proof.
  unfold join_tables, room_of. intros Hlow.
  destruct (users t !! u) as [urow|] eqn:Hu; simpl; [|done].
  rewrite Hlow.
  destruct (rooms t !! r) as [rrow|] eqn:Hr; simpl; [|done].
  destruct (openpgp_armor _); simpl; [|done].
  intros [= <-] Hsym u' r'.
  destruct (edge_sides u r t urow rrow Hsym Hu Hr) as [Hside1 Hside2].
  rewrite in_rooms_write, in_members_write, Hu, Hr.
  repeat case_decide; subst;
    rewrite ?JSSetFacts.elem_of_add, ?JSSetFacts.elem_of_of_array.
  - split; intros _; (split; [eauto|by left]).
  - rewrite Hside1. split; [by intros [_ [?|?]]|].
    intros ?; split; [eauto|by right].
  - rewrite Hside2. split; [|by intros [_ [?|?]]].
    intros ?; split; [eauto|by right].
  - apply Hsym.
Qed.

Lemma leave_tables_symmetric u r t t' :
  toLowerCase r = r → leave_tables u r t = Some t' →
  symmetric t → symmetric t'.
Proof.
  unfold leave_tables, room_of. intros Hlow.
  destruct (users t !! u) as [urow|] eqn:Hu; simpl; [|done].
  rewrite Hlow.
  destruct (rooms t !! r) as [rrow|] eqn:Hr; simpl; [|done].
  destruct (openpgp_armor _); simpl; [|done].
  intros [= <-] Hsym u' r'.
  destruct (edge_sides u r t urow rrow Hsym Hu Hr) as [Hside1 Hside2].
  rewrite in_rooms_write, in_members_write, Hu, Hr.
  repeat case_decide; subst;
    rewrite ?JSSetFacts.elem_of_delete, ?JSSetFacts.elem_of_of_array.
  - split; by intros [_ [? _]].
  - rewrite Hside1. split; [by intros [_ [_ ?]]|].
    intros ?; split_and!; [eauto|congruence|done].
  - rewrite Hside2. split; [|by intros [_ [_ ?]]].
    intros ?; split_and!; [eauto|congruence|done].
  - apply Hsym.
Qed.

(** For room names passed in lowercase, joins and leaves keep the two
    sides of every edge in step, whatever faults they meet. *)
Lemma addUserToRoom_symmetric u r w :
  toLowerCase r = r → symmetric (db w) →
  symmetric (db (snd (addUserToRoom u r w))).
Proof.
  intros Hlow Hsym. destruct (addUserToRoom_run u r w) as (_ & -> & _).
  destruct (join_tables u r (db w)) as [t'|] eqn:Hj; [|done].
  destruct (calm 5 w); [|done]. by eapply join_tables_symmetric.
Qed.

Lemma removeUserFromRoom_symmetric u r w :
  toLowerCase r = r → symmetric (db w) →
  symmetric (db (snd (removeUserFromRoom u r w))).
Proof.
  intros Hlow Hsym. destruct (removeUserFromRoom_run u r w) as (_ & -> & _).
  destruct (leave_tables u r (db w)) as [t'|] eqn:Hj; [|done].
  destruct (calm 5 w); [|done]. by eapply leave_tables_symmetric.
Qed.

Lemma exec_symmetric cs w :
  Forall lowercase_membership cs → symmetric (db w) →
  ∀ n, symmetric (db (exec (take n cs) w)).
Proof.
  unfold exec. revert w.
  induction cs as [|c cs IH]; intros w Hcs Hsym n.
  { by rewrite take_nil. }
  destruct n as [|n]; simpl; [done|].
  apply Forall_cons in Hcs as [Hc Hcs].
  apply IH; [done|].
  destruct c; simpl in Hc; try done; unfold run; rewrite snd_fmap_promise.
  - by apply addUserToRoom_symmetric.
  - by apply removeUserFromRoom_symmetric.
Qed.

(** Lookups and existence checks do not depend on the case of the name. *)
Lemma getRoom_case r1 r2 w :
  toLowerCase r1 = toLowerCase r2 → getRoom r1 w = getRoom r2 w.
Proof. intros Hlow. by rewrite !getRoom_run, Hlow. Qed.

Lemma existsRoom_case r1 r2 w :
  toLowerCase r1 = toLowerCase r2 → existsRoom r1 w = existsRoom r2 w.
Proof. intros Hlow. by rewrite !existsRoom_run, Hlow. Qed.

Lemma createRoom_then_getRoom r d w w1 r1 r2 :
  createRoom r d w = (Resolved true, w1) →
  toLowerCase r1 = toLowerCase r → toLowerCase r2 = toLowerCase r →
  ∃ pub priv,
    openpgp_generateKey r 2048 (entropy w) = Some (pub, priv) ∧
    fst (getRoom r1 w1)
      = Resolved (if faulty w1 then None
                  else room_of (toLowerCase r) (mkRoomRow d [] pub priv)) ∧
    fst (existsRoom r2 w1) = Resolved true.
Proof.
  intros Hcreate Hr1 Hr2.
  apply createRoom_true in Hcreate as (pub & priv & Hgen & _ & Hrow).
  exists pub, priv. rewrite getRoom_run, existsRoom_run, Hr1, Hr2, Hrow.
  simpl. split_and!; [done..|]. by destruct (faulty w1).
Qed.

(** A join under a name that is not in lowercase: with both rows stored
    and no fault it answers [true], the name as passed enters the rooms
    of the user, and table [rooms] is left as it was. *)
Lemma addUserToRoom_mixed_case u r w urow rrow armored :
  normalized (db w) → toLowerCase r ≠ r →
  users (db w) !! u = Some urow →
  rooms (db w) !! toLowerCase r = Some rrow →
  openpgp_armor (room_publicKey rrow) = Some armored →
  calm 6 w = true →
  fst (addUserToRoom u r w) = Resolved true ∧
  in_rooms (db (snd (addUserToRoom u r w))) u r ∧
  rooms (db (snd (addUserToRoom u r w))) = rooms (db w).
Proof.
  intros Hn Hlow Hu Hr Ha Hc.
  destruct (addUserToRoom_run u r w) as (-> & -> & _).
  unfold join_tables, room_of. rewrite Hu, Hr; simpl.
  rewrite Ha, Hc, (calm_le 5 6 w) by (done || lia); simpl.
  split_and!; [done| |].
  - apply in_rooms_write. rewrite decide_True by done. split; [eauto|].
    apply JSSetFacts.elem_of_add. by left.
  - simpl. apply alter_id'. destruct (rooms (db w) !! r) eqn:Hrr; [|done].
    destruct Hlow. apply Hn. by rewrite Hrr.
Qed.

(** Room names stay in lowercase whatever is called. *)
Lemma exec_normalized cs w :
  normalized (db w) → normalized (db (exec cs w)).
Proof. apply steps_normalized, exec_steps. Qed.

(** With no query rejected, the observers are the members of the stored
    rooms of the user whose key can be armored. *)
Lemma getUserViews_quiet u w row :
  true ∉ faults w → users (db w) !! u = Some row →
  ∃ V, fst (getUserViews u w) = Resolved (Some V) ∧
       ∀ v, v ∈ V ↔
         ∃ r rrow, r ∈ user_rooms row ∧
                   rooms (db w) !! toLowerCase r = Some rrow ∧
                   is_Some (openpgp_armor (room_publicKey rrow)) ∧
                   v ∈ room_members rrow.
Proof.
  intros Hq Hu.
  assert (faulty w = false) as Hf by (by eapply calm_faulty, (calm_quiet 1)).
  destruct (getUserViews_run u w) as (V & (Hres & _) & _ & HV).
  rewrite Hf, Hu in Hres. exists V. split; [done|].
  intros v. rewrite (HV row Hu). split.
  - intros (i & r & room & Hi & [_ Hload] & Hv).
    apply list_elem_of_lookup_2 in Hi.
    rewrite JSSetFacts.elem_of_of_array in Hi.
    simpl in Hload. unfold room_of in Hload.
    destruct (rooms (db w) !! toLowerCase r) as [rrow|] eqn:Hr; [|done].
    simpl in Hload.
    destruct (openpgp_armor (room_publicKey rrow)) eqn:Ha; [|done].
    injection Hload as <-. simpl in Hv.
    rewrite JSSetFacts.elem_of_of_array in Hv.
    exists r, rrow. rewrite Ha. eauto.
  - intros (r & rrow & Hin & Hr & [a Ha] & Hv).
    rewrite <-JSSetFacts.elem_of_of_array in Hin.
    apply list_elem_of_lookup in Hin as [i Hi].
    eexists i, r, _. split; [done|]. split.
    + split.
      * intros Hfault. apply Hq. unfold pop in Hfault; simpl in Hfault.
        apply list_elem_of_lookup_2 in Hfault.
        destruct (faults w); [done|]. by right.
      * simpl. rewrite Hr; simpl. unfold room_of. by rewrite Ha.
    + simpl. by apply JSSetFacts.elem_of_of_array.
Qed.

End Consequences.

(** ** Further properties of the module *)

Section Coverage.
Context `{Crypto}.

Lemma tables_eta t : mkTables (users t) (rooms t) = t.
Proof. by destruct t. Qed.

Lemma quiet_after {A} (res : Outcome A * World) w a t :
  yields res w a t → true ∉ faults w → true ∉ faults (snd res).
Proof.
  intros (_ & _ & _ & [k Hk]) Hq Hin. apply Hq. rewrite Hk.
  apply elem_of_app. by right.
Qed.

Lemma read_only_db c w : read_only c = true → db (snd (run c w)) = db w.
Proof.
  destruct c; simpl; try done; intros _; rewrite snd_fmap_promise.
  - by rewrite getUserSession_run.
  - by rewrite compareUserProfile_run.
  - by destruct (getUserViews_run username w) as (V & (_ & -> & _) & _).
  - by rewrite existsRoom_run.
  - by rewrite getRoom_run.
  - by rewrite getUserPublicKey_run.
Qed.

(** X1 — [removeUserFromRoom] answers [false] and leaves both tables as
    they were when the user is absent, when the room is absent, and when
    one of its queries before COMMIT (the two reads, BEGIN, the two
    updates) is rejected.  When COMMIT itself is rejected it answers
    [false] as well, and the two updates stay written. *)
Theorem removeUserFromRoom_failure u r w :
  (users (db w) !! u = None ∨
   rooms (db w) !! toLowerCase r = None ∨
   (∃ i, (i < 5)%nat ∧ faults w !! i = Some true) →
   fst (removeUserFromRoom u r w) = Resolved false ∧
   db (snd (removeUserFromRoom u r w)) = db w) ∧
  (calm 5 w = true → faults w !! 5%nat = Some true →
   fst (removeUserFromRoom u r w) = Resolved false ∧
   db (snd (removeUserFromRoom u r w))
     = default (db w) (leave_tables u r (db w))).
Proof.
  destruct (removeUserFromRoom_run u r w) as (-> & -> & _). split.
  - intros [Hu|[Hr|Hf]].
    + unfold leave_tables. by rewrite Hu.
    + unfold leave_tables. rewrite Hr. by destruct (users (db w) !! u).
    + assert (calm 5 w = false) as H5 by (by apply calm_false).
      assert (calm 6 w = false) as H6.
      { destruct (calm 6 w) eqn:H6; [|done].
        apply (calm_le 5) in H6; [congruence|lia]. }
      rewrite H5, H6. by case_match.
  - intros H5 Hf. rewrite (calm_5_commit w H5 Hf), H5. by case_match.
Qed.

(** X2 — a sequence of calls that only read ([getUserSession],
    [compareUserProfile], [getUserViews], [existsRoom], [getRoom],
    [getUserPublicKey]) leaves both tables as they were, whatever faults
    the calls meet. *)
Theorem read_only_calls_keep_tables cs w :
  Forall (λ c, read_only c = true) cs → db (exec cs w) = db w.
Proof.
  unfold exec. revert w.
  induction cs as [|c cs IH]; intros w Hcs; simpl; [done|].
  apply Forall_cons in Hcs as [Hc Hcs].
  rewrite IH by done. by apply read_only_db.
Qed.

(** X3 — the three updates of a user ([updateUserProfile],
    [setUserStatus], [setUserPublicKey]) answer [true] for a username
    that is not stored, when their query goes through, and store
    nothing: the tables are as they were and [getUserPublicKey] still
    answers [null]. *)
Theorem updates_of_missing_user u c b k w :
  users (db w) !! u = None → faulty w = false →
  fst (updateUserProfile u c w) = Resolved true ∧
  db (snd (updateUserProfile u c w)) = db w ∧
  fst (setUserStatus u b w) = Resolved true ∧
  db (snd (setUserStatus u b w)) = db w ∧
  fst (setUserPublicKey u k w) = Resolved true ∧
  db (snd (setUserPublicKey u k w)) = db w ∧
  ∀ fs, fst (getUserPublicKey u
               (mkWorld (db (snd (setUserPublicKey u k w))) fs (entropy w)))
        = Resolved None.
Proof.
  intros Hu Hf. unfold updateUserProfile, setUserStatus, setUserPublicKey.
  rewrite !users_update_run, Hf; simpl.
  rewrite !alter_id' by done. rewrite tables_eta.
  split_and!; try done.
  intros fs. rewrite getUserPublicKey_run; simpl. rewrite Hu.
  by case_match.
Qed.

(** X4 — when key generation fails, [createRoom] for a name not yet
    stored rejects (the failure is not caught and no [false] is
    answered) and leaves the tables as they were. *)
Theorem createRoom_keygen_failure r d w :
  rooms (db w) !! toLowerCase r = None → faulty w = false →
  openpgp_generateKey r 2048 (entropy w) = None →
  fst (createRoom r d w) = Rejected ∧ db (snd (createRoom r d w)) = db w.
Proof. intros Hr Hf Hgen. by rewrite createRoom_run, Hf, Hr, Hgen. Qed.



(** X7 — a stored room whose public key cannot be read back is hidden:
    whatever the faults, [getRoom] answers [null] for it while
    [existsRoom] answers [true], and [addUserToRoom] and
    [removeUserFromRoom] answer [false] and change nothing. *)
Theorem unreadable_key_hides_room u r w row :
  rooms (db w) !! toLowerCase r = Some row →
  openpgp_armor (room_publicKey row) = None →
  fst (getRoom r w) = Resolved None ∧
  fst (existsRoom r w) = Resolved true ∧
  fst (addUserToRoom u r w) = Resolved false ∧
  db (snd (addUserToRoom u r w)) = db w ∧
  fst (removeUserFromRoom u r w) = Resolved false ∧
  db (snd (removeUserFromRoom u r w)) = db w.
Proof.
  intros Hr Ha.
  destruct (addUserToRoom_run u r w) as (-> & -> & _).
  destruct (removeUserFromRoom_run u r w) as (-> & -> & _).
  rewrite getRoom_run, existsRoom_run. unfold join_tables, leave_tables.
  rewrite Hr; simpl. unfold room_of. rewrite Ha; simpl.
  split_and!; try by destruct (faulty w).
  all: by destruct (users (db w) !! u).
Qed.

(** *** Joining and leaving *)

Lemma add_fresh x s : x ∉ s → JSSet.add x s = s ++ [x].
Proof. intros Hx. unfold JSSet.add. by case_decide. Qed.

Lemma delete_snoc x s : x ∉ s → JSSet.delete x (s ++ [x]) = s.
Proof.
  intros Hx. unfold JSSet.delete. rewrite filter_app.
  rewrite filter_cons_False by (by intros []). rewrite filter_nil, app_nil_r.
  by apply JSSetFacts.delete_absent.
Qed.

Lemma NoDup_snoc_fresh (x : string) s : NoDup s → x ∉ s → NoDup (s ++ [x]).
Proof.
  intros Hs Hx. apply NoDup_app. split_and!; [done| |apply NoDup_singleton].
  by intros y Hy ->%list_elem_of_singleton.
Qed.

Lemma join_tables_fresh u r t urow rrow armored :
  toLowerCase r = r →
  users t !! u = Some urow → rooms t !! r = Some rrow →
  openpgp_armor (room_publicKey rrow) = Some armored →
  NoDup (user_rooms urow) → NoDup (room_members rrow) →
  r ∉ user_rooms urow → u ∉ room_members rrow →
  join_tables u r t
    = Some (write_membership u r (user_rooms urow ++ [r])
              (room_members rrow ++ [u]) t).
Proof.
  intros Hlow Hu Hr Ha Hnr Hnm Hr' Hu'. unfold join_tables, room_of.
  rewrite Hu, Hlow, Hr; simpl. rewrite Ha; simpl.
  rewrite !JSSetFacts.of_array_NoDup by done. by rewrite !add_fresh.
Qed.

Lemma leave_tables_back u r t urow rrow armored :
  toLowerCase r = r →
  users t !! u = Some urow → rooms t !! r = Some rrow →
  openpgp_armor (room_publicKey rrow) = Some armored →
  NoDup (user_rooms urow) → NoDup (room_members rrow) →
  r ∉ user_rooms urow → u ∉ room_members rrow →
  leave_tables u r
    (write_membership u r (user_rooms urow ++ [r])
       (room_members rrow ++ [u]) t)
    = Some t.
Proof.
  intros Hlow Hu Hr Ha Hnr Hnm Hr' Hu'. unfold leave_tables, room_of; simpl.
  rewrite Hlow, !lookup_alter_eq, Hu, Hr; simpl. rewrite Ha; simpl.
  rewrite !JSSetFacts.of_array_NoDup by (by apply NoDup_snoc_fresh).
  rewrite !delete_snoc by done. f_equal.
  unfold write_membership; simpl. rewrite <-(tables_eta t) at 3.
  f_equal; apply map_eq; intros k; rewrite !lookup_alter;
    repeat case_decide; subst; try done.
  - rewrite Hu; simpl. by destruct urow.
  - rewrite Hr; simpl. by destruct rrow.
Qed.

(** X8 — joining and then leaving restores the tables: for a stored user
    and a stored room named in lowercase, whose stored lists hold no
    repetition and no edge between the two, with no query rejected,
    [addUserToRoom] followed by [removeUserFromRoom] leaves both tables
    exactly as they were. *)
Theorem join_then_leave_restores u r w urow rrow armored :
  toLowerCase r = r →
  users (db w) !! u = Some urow → rooms (db w) !! r = Some rrow →
  openpgp_armor (room_publicKey rrow) = Some armored →
  NoDup (user_rooms urow) → NoDup (room_members rrow) →
  r ∉ user_rooms urow → u ∉ room_members rrow →
  true ∉ faults w →
  fst (addUserToRoom u r w) = Resolved true ∧
  fst (removeUserFromRoom u r (snd (addUserToRoom u r w))) = Resolved true ∧
  db (exec [AddUserToRoom u r; RemoveUserFromRoom u r] w) = db w.
Proof.
  intros Hlow Hu Hr Ha Hnr Hnm Hr' Hu' Hq.
  unfold exec; simpl. rewrite !snd_fmap_promise.
  pose proof (addUserToRoom_run u r w) as Hjoin.
  pose proof (quiet_after _ _ _ _ Hjoin Hq) as Hq1.
  destruct Hjoin as (Hres & Hdb & _).
  rewrite (join_tables_fresh u r (db w) urow rrow armored) in Hres, Hdb
    by done.
  rewrite (calm_quiet 6 w Hq) in Hres. rewrite (calm_quiet 5 w Hq) in Hdb.
  destruct (removeUserFromRoom_run u r (snd (addUserToRoom u r w)))
    as (Hres' & Hdb' & _).
  rewrite Hdb in Hres', Hdb'.
  rewrite (leave_tables_back u r (db w) urow rrow armored) in Hres', Hdb'
    by done.
  rewrite (calm_quiet 6 _ Hq1) in Hres'. rewrite (calm_quiet 5 _ Hq1) in Hdb'.
  done.
Qed.

(** X9 — after an [addUserToRoom] that answered [true] for a room named
    in lowercase, the edge shows on both sides: the next
    [getUserSession] of the user, if its read goes through, returns a
    session whose rooms hold the room, and the next [getRoom], likewise,
    returns a record whose members hold the user. *)
Theorem join_visible u r w w1 :
  toLowerCase r = r →
  addUserToRoom u r w = (Resolved true, w1) → faulty w1 = false →
  (∃ s, fst (getUserSession u w1) = Resolved (Some s) ∧
        r ∈ Session.rooms s) ∧
  (∃ room, fst (getRoom r w1) = Resolved (Some room) ∧
           u ∈ Room.members room ∧ Room.name room = r).
Proof.
  intros Hlow Hrun Hf.
  destruct (addUserToRoom_run u r w) as (Hres & Hdb & _).
  rewrite Hrun in Hres, Hdb; simpl in *.
  unfold join_tables, room_of in Hres, Hdb. rewrite Hlow in Hres, Hdb.
  destruct (users (db w) !! u) as [urow|] eqn:Hu; simpl in *; [|done].
  destruct (rooms (db w) !! r) as [rrow|] eqn:Hr; simpl in *; [|done].
  destruct (openpgp_armor (room_publicKey rrow)) eqn:Ha; simpl in *; [|done].
  injection Hres as Hc. symmetry in Hc. apply (calm_le 5) in Hc; [|lia].
  rewrite Hc in Hdb.
  rewrite getUserSession_run, getRoom_run, Hf, Hlow, Hdb; simpl.
  rewrite !lookup_alter_eq, Hu, Hr; simpl. unfold room_of; simpl.
  rewrite Ha; simpl. split; eexists; (split; [done|]); simpl.
  - rewrite JSSetFacts.elem_of_of_array, JSSetFacts.elem_of_add. by left.
  - split; [|done].
    rewrite JSSetFacts.elem_of_of_array, JSSetFacts.elem_of_add. by left.
Qed.

(** X10 — after a [removeUserFromRoom] that answered [true] for a room
    named in lowercase, the edge is gone on both sides: the next
    [getUserSession] returns a session whose rooms do not hold the room,
    and the next [getRoom] a record whose members do not hold the
    user. *)
Theorem leave_visible u r w w1 :
  toLowerCase r = r →
  removeUserFromRoom u r w = (Resolved true, w1) → faulty w1 = false →
  (∃ s, fst (getUserSession u w1) = Resolved (Some s) ∧
        r ∉ Session.rooms s) ∧
  (∃ room, fst (getRoom r w1) = Resolved (Some room) ∧
           u ∉ Room.members room).
Proof.
  intros Hlow Hrun Hf.
  destruct (removeUserFromRoom_run u r w) as (Hres & Hdb & _).
  rewrite Hrun in Hres, Hdb; simpl in *.
  unfold leave_tables, room_of in Hres, Hdb. rewrite Hlow in Hres, Hdb.
  destruct (users (db w) !! u) as [urow|] eqn:Hu; simpl in *; [|done].
  destruct (rooms (db w) !! r) as [rrow|] eqn:Hr; simpl in *; [|done].
  destruct (openpgp_armor (room_publicKey rrow)) eqn:Ha; simpl in *; [|done].
  injection Hres as Hc. symmetry in Hc. apply (calm_le 5) in Hc; [|lia].
  rewrite Hc in Hdb.
  rewrite getUserSession_run, getRoom_run, Hf, Hlow, Hdb; simpl.
  rewrite !lookup_alter_eq, Hu, Hr; simpl. unfold room_of; simpl.
  rewrite Ha; simpl. split; eexists; (split; [done|]); simpl.
  - rewrite JSSetFacts.elem_of_of_array, JSSetFacts.elem_of_delete. tauto.
  - rewrite JSSetFacts.elem_of_of_array, JSSetFacts.elem_of_delete. tauto.
Qed.

(** *** Invariants of the tables *)

Lemma symmetric_user_insert t u row :
  symmetric t → users t !! u = None → user_rooms row = [] →
  symmetric (mkTables (<[u:=row]> (users t)) (rooms t)).
Proof.
  intros Hsym Hu Hrs u' r'. unfold in_rooms, in_members; simpl.
  destruct (decide (u = u')) as [<-|Hne].
  - rewrite lookup_insert_eq. split.
    + intros (row' & [= <-] & Hin). rewrite Hrs in Hin.
      by apply elem_of_nil in Hin.
    + intros Hm. apply (Hsym u r') in Hm as (row' & Hrow' & _). congruence.
  - rewrite lookup_insert_ne by done. apply Hsym.
Qed.

Lemma symmetric_user_alter t u f :
  (∀ row, user_rooms (f row) = user_rooms row) → symmetric t →
  symmetric (mkTables (alter f u (users t)) (rooms t)).
Proof.
  intros Hf Hsym u' r'. rewrite <-(Hsym u' r').
  unfold in_rooms; simpl. rewrite lookup_alter. case_decide; [subst u'|done].
  destruct (users t !! u) as [row|]; simpl; [|done]. split.
  - intros (row' & [= <-] & Hin). rewrite Hf in Hin. eauto.
  - intros (row' & [= <-] & Hin). eexists. split; [done|]. by rewrite Hf.
Qed.

Lemma symmetric_room_insert t k row :
  symmetric t → rooms t !! k = None → room_members row = [] →
  symmetric (mkTables (users t) (<[k:=row]> (rooms t))).
Proof.
  intros Hsym Hk Hms u' r'. unfold in_rooms, in_members; simpl.
  destruct (decide (k = r')) as [<-|Hne].
  - rewrite lookup_insert_eq. split.
    + intros Hr. apply (Hsym u' k) in Hr as (row' & Hrow' & _). congruence.
    + intros (row' & [= <-] & Hin). rewrite Hms in Hin.
      by apply elem_of_nil in Hin.
  - rewrite lookup_insert_ne by done. apply Hsym.
Qed.

Lemma run_symmetric c w :
  lowercase_names c → symmetric (db w) → symmetric (db (snd (run c w))).
Proof.
  intros Hc Hsym.
  destruct (read_only c) eqn:Hro; [by rewrite read_only_db|].
  destruct c as [u|u p c|u p|u c|u b|u r|u r|u|r|r d|r|u k|u];
    try done; unfold run; rewrite snd_fmap_promise.
  - rewrite createUserProfile_run.
    destruct (faulty w); simpl; [done|].
    destruct (users (db w) !! u) eqn:Hu; simpl; [done|].
    case_match; simpl; [done|]. by apply symmetric_user_insert.
  - unfold updateUserProfile. rewrite users_update_run.
    destruct (faulty w); simpl; [done|]. by apply symmetric_user_alter.
  - unfold setUserStatus. rewrite users_update_run.
    destruct (faulty w); simpl; [done|]. by apply symmetric_user_alter.
  - by apply addUserToRoom_symmetric.
  - by apply removeUserFromRoom_symmetric.
  - rewrite createRoom_run.
    destruct (faulty w); simpl; [done|].
    destruct (rooms (db w) !! toLowerCase r) eqn:Hr; simpl; [done|].
    destruct (openpgp_generateKey _ _ _) as [[pub priv]|]; simpl; [|done].
    case_match; simpl; [done|]. by apply symmetric_room_insert.
  - unfold setUserPublicKey. rewrite users_update_run.
    destruct (faulty w); simpl; [done|]. by apply symmetric_user_alter.
Qed.

Lemma symmetric_exec cs w :
  Forall lowercase_names cs → symmetric (db w) → symmetric (db (exec cs w)).
Proof.
  unfold exec. revert w.
  induction cs as [|c cs IH]; intros w Hcs Hsym; simpl; [done|].
  apply Forall_cons in Hcs as [Hc Hcs].
  apply IH; [done|]. by apply run_symmetric.
Qed.

(** X11 — membership symmetry is an invariant of the whole module: from
    tables where the two sides of every edge agree, after each call of
    any sequence of calls, whatever faults they meet, the two sides
    still agree, provided the joins and leaves of the sequence name
    their rooms in lowercase. *)
Theorem exec_symmetric_calls cs w n :
  Forall lowercase_names cs → symmetric (db w) →
  symmetric (db (exec (take n cs) w)).
Proof.
  unfold exec. revert w n.
  induction cs as [|c cs IH]; intros w n Hcs Hsym.
  { by rewrite take_nil. }
  destruct n as [|n]; simpl; [done|].
  apply Forall_cons in Hcs as [Hc Hcs].
  apply IH; [done|]. by apply run_symmetric.
Qed.




(** X13 — room names stay in lowercase: from tables whose room names
    are in lowercase, after any sequence of calls every stored room name
    is in lowercase, so [existsRoom] called with the stored name answers
    [true] and [getRoom] reads that very row. *)
Theorem room_names_stay_lowercase cs w k row :
  normalized (db w) → rooms (db (exec cs w)) !! k = Some row →
  toLowerCase k = k ∧
  fst (existsRoom k (exec cs w)) = Resolved true ∧
  fst (getRoom k (exec cs w))
    = Resolved (if faulty (exec cs w) then None else room_of k row).
Proof.
  intros Hn Hk.
  assert (toLowerCase k = k) as Hlow.
  { apply (steps_normalized _ _ (exec_steps cs w) Hn). by rewrite Hk. }
  rewrite existsRoom_run, getRoom_run, Hlow, Hk; simpl.
  split_and!; [done| |done]. by destruct (faulty _).
Qed.

(** X20 — with a room name that is not in lowercase, neither
    [addUserToRoom] nor [removeUserFromRoom] ever changes table [rooms]
    (room names being stored in lowercase): the update of the room looks
    for the name as passed and finds no row. *)
Theorem mixed_case_keeps_rooms u r w :
  normalized (db w) → toLowerCase r ≠ r →
  rooms (db (snd (addUserToRoom u r w))) = rooms (db w) ∧
  rooms (db (snd (removeUserFromRoom u r w))) = rooms (db w).
Proof.
  intros Hn Hlow.
  assert (rooms (db w) !! r = None) as Hr.
  { destruct (rooms (db w) !! r) eqn:Hrr; [|done].
    destruct Hlow. apply Hn. by rewrite Hrr. }
  destruct (addUserToRoom_run u r w) as (_ & -> & _).
  destruct (removeUserFromRoom_run u r w) as (_ & -> & _).
  unfold join_tables, leave_tables.
  destruct (users (db w) !! u); simpl; [|done].
  destruct (_ ≫= room_of _); simpl; [|done].
  destruct (calm 5 w); [|done]. simpl. by rewrite !alter_id'.
Qed.

(** *** Writing a user and reading it back *)

Lemma calm_2 w :
  calm 2 w = true → faulty w = false ∧ faulty (pop w) = false.
Proof.
  rewrite calm_S. intros [Hf Hc]%andb_true_iff.
  apply negb_true_iff in Hf. by apply calm_faulty in Hc.
Qed.

Lemma users_update_lookup u f w :
  calm 2 w = true →
  fst (catch (users_update u f ;;; resolve true) false w) = Resolved true ∧
  faulty (snd (catch (users_update u f ;;; resolve true) false w)) = false ∧
  db (snd (catch (users_update u f ;;; resolve true) false w))
    = mkTables (alter f u (users (db w))) (rooms (db w)).
Proof.
  intros [Hf Hf']%calm_2. rewrite users_update_run, Hf. by simpl.
Qed.

(** X14 — [updateUserProfile] changes the color and nothing else: for a
    stored user, with the update and the next read going through, it
    answers [true] and [getUserSession] then returns the session of the
    row with the new color, every other field as stored; the rows of
    the other users and table [rooms] are as they were. *)
Theorem updateUserProfile_roundtrip u c w row u' :
  users (db w) !! u = Some row → calm 2 w = true → u' ≠ u →
  fst (updateUserProfile u c w) = Resolved true ∧
  fst (getUserSession u (snd (updateUserProfile u c w)))
    = Resolved
        (Some (session_of u
                 (mkUserRow (user_displayName row) (user_password row) c
                    (user_rooms row) (user_online row)
                    (user_publicKey row)))) ∧
  users (db (snd (updateUserProfile u c w))) !! u' = users (db w) !! u' ∧
  rooms (db (snd (updateUserProfile u c w))) = rooms (db w).
Proof.
  intros Hu Hc Hne. unfold updateUserProfile.
  destruct (users_update_lookup u (set_color c) w Hc) as (-> & Hf & Hdb).
  rewrite getUserSession_run, Hf, Hdb; simpl.
  rewrite lookup_alter_eq, lookup_alter_ne, Hu by done. done.
Qed.

(** X15 — [setUserStatus] changes the presence flag and nothing else:
    for a stored user, with the update and the next read going through,
    it answers [true] and [getUserSession] then returns a session with
    [online] as set, [offline] its negation, and the other fields as
    stored; the rows of the other users and table [rooms] are as they
    were. *)
Theorem setUserStatus_roundtrip u b w row u' :
  users (db w) !! u = Some row → calm 2 w = true → u' ≠ u →
  fst (setUserStatus u b w) = Resolved true ∧
  fst (getUserSession u (snd (setUserStatus u b w)))
    = Resolved
        (Some (Session.mk u (user_displayName row) (user_password row)
                 (user_color row) (JSSet.of_array (user_rooms row))
                 b (negb b) (user_publicKey row))) ∧
  users (db (snd (setUserStatus u b w))) !! u' = users (db w) !! u' ∧
  rooms (db (snd (setUserStatus u b w))) = rooms (db w).
Proof.
  intros Hu Hc Hne. unfold setUserStatus.
  destruct (users_update_lookup u (set_online b) w Hc) as (-> & Hf & Hdb).
  rewrite getUserSession_run, Hf, Hdb; simpl.
  rewrite lookup_alter_eq, lookup_alter_ne, Hu by done.
  by destruct b.
Qed.

(** X16 — a public key set is the key got: for a stored user, with the
    update and the next read going through, [setUserPublicKey] answers
    [true] and [getUserPublicKey] then returns the bytes given; the
    password, color, rooms and presence of the user, the rows of the
    other users and table [rooms] are as they were. *)
Theorem setUserPublicKey_roundtrip u k w row u' :
  users (db w) !! u = Some row → calm 2 w = true → u' ≠ u →
  fst (setUserPublicKey u k w) = Resolved true ∧
  fst (getUserPublicKey u (snd (setUserPublicKey u k w)))
    = Resolved (Some k) ∧
  users (db (snd (setUserPublicKey u k w))) !! u
    = Some (mkUserRow (user_displayName row) (user_password row)
              (user_color row) (user_rooms row) (user_online row) (Some k)) ∧
  users (db (snd (setUserPublicKey u k w))) !! u' = users (db w) !! u' ∧
  rooms (db (snd (setUserPublicKey u k w))) = rooms (db w).
Proof.
  intros Hu Hc Hne. unfold setUserPublicKey.
  destruct (users_update_lookup u (set_publicKey k) w Hc) as (-> & Hf & Hdb).
  rewrite getUserPublicKey_run, Hf, Hdb; simpl.
  rewrite lookup_alter_eq, lookup_alter_ne, Hu by done. done.
Qed.

(** X17 — a user just created has no public key and an unset display
    name: after a [createUserProfile] that answered [true],
    [getUserPublicKey] answers [null], and [getUserSession], when its
    read goes through, returns the username and color given, the hash
    of the password, no room, [online] false and [offline] true. *)
Theorem createUserProfile_then_lookups u p c w w1 :
  createUserProfile u p c w = (Resolved (Some true), w1) →
  fst (getUserPublicKey u w1) = Resolved None ∧
  fst (getUserSession u w1)
    = Resolved
        (if faulty w1 then None
         else Some (Session.mk u None (bcrypt_hash p 10 (entropy w)) c
                      JSSet.empty false true None)).
Proof.
  intros [_ Hrow]%createUserProfile_true.
  rewrite getUserPublicKey_run, getUserSession_run, Hrow; simpl.
  split; by destruct (faulty w1).
Qed.

(** *** Creating a room and reading it back *)

(** X18 — a room created is the room read, under any casing of its
    name: after a [createRoom r d] that answered [true], [existsRoom]
    answers [true] for every name equal to [r] up to case, and [getRoom]
    for such a name, when its read goes through and the key can be
    armored, returns the record named by the lowercase of [r], with the
    description given, no member, the key pair generated and its
    armor. *)
Theorem createRoom_getRoom_roundtrip r d w w1 r' :
  createRoom r d w = (Resolved true, w1) →
  toLowerCase r' = toLowerCase r → faulty w1 = false →
  ∃ pub priv,
    openpgp_generateKey r 2048 (entropy w) = Some (pub, priv) ∧
    fst (existsRoom r' w1) = Resolved true ∧
    fst (getRoom r' w1)
      = Resolved
          (match openpgp_armor pub with
           | Some armored =>
               Some (Room.mk (toLowerCase r) d JSSet.empty pub priv armored)
           | None => None
           end).
Proof.
  intros Hcreate Hlow Hf.
  apply createRoom_true in Hcreate as (pub & priv & Hgen & _ & Hrow).
  exists pub, priv. rewrite existsRoom_run, getRoom_run, Hf, Hlow, Hrow.
  simpl. unfold room_of; simpl. split_and!; [done..|]. by case_match.
Qed.

(** *** Observers *)

(** X19 — joining a room makes its members observers: after an
    [addUserToRoom] that answered [true] for a room named in lowercase,
    with no query rejected afterwards, [getUserViews] of the user
    returns a set holding the user and every member the room had. *)
Theorem join_makes_observers u r w w1 rrow :
  toLowerCase r = r → rooms (db w) !! r = Some rrow →
  addUserToRoom u r w = (Resolved true, w1) → true ∉ faults w1 →
  ∃ V, fst (getUserViews u w1) = Resolved (Some V) ∧
       u ∈ V ∧ ∀ v, v ∈ room_members rrow → v ∈ V.
Proof.
  intros Hlow Hr Hrun Hq.
  destruct (addUserToRoom_run u r w) as (Hres & Hdb & _).
  rewrite Hrun in Hres, Hdb; simpl in *.
  unfold join_tables, room_of in Hres, Hdb. rewrite Hlow, Hr in Hres, Hdb.
  destruct (users (db w) !! u) as [urow|] eqn:Hu; simpl in *; [|done].
  destruct (openpgp_armor (room_publicKey rrow)) eqn:Ha; simpl in *; [|done].
  injection Hres as Hc. symmetry in Hc. apply (calm_le 5) in Hc; [|lia].
  rewrite Hc in Hdb.
  assert (users (db w1) !! u
          = Some (set_user_rooms
                    (JSSet.add r (JSSet.of_array (user_rooms urow))) urow))
    as Hu1 by (by rewrite Hdb; simpl; rewrite lookup_alter_eq, Hu).
  assert (rooms (db w1) !! toLowerCase r
          = Some (set_members
                    (JSSet.add u (JSSet.of_array (room_members rrow))) rrow))
    as Hr1 by (by rewrite Hlow, Hdb; simpl; rewrite lookup_alter_eq, Hr).
  destruct (getUserViews_quiet u w1 _ Hq Hu1) as (V & HV & Hmem).
  exists V. split; [done|].
  assert (∀ v, v ∈ JSSet.add u (JSSet.of_array (room_members rrow)) → v ∈ V)
    as Hin.
  { intros v Hv. apply Hmem. eexists r, _. split_and!; [|exact Hr1| |exact Hv].
    - simpl. apply JSSetFacts.elem_of_add. by left.
    - simpl. by rewrite Ha. }
  split.
  - apply Hin, JSSetFacts.elem_of_add. by left.
  - intros v Hv. apply Hin, JSSetFacts.elem_of_add. right.
    by apply JSSetFacts.elem_of_of_array.
Qed.

(** *** Sets handed to callers *)


(** *** Failure and composition *)

Lemma commit_rejected w :
  calm 5 w = true → calm 6 w = false → faults w !! 5%nat = Some true.
Proof.
  intros H5 [i [Hi Hf]]%calm_false.
  destruct (decide (i = 5%nat)) as [->|Hne]; [done|].
  assert (calm 5 w = false); [|congruence].
  apply calm_false. exists i. split; [lia|done].
Qed.

(** X22 — a call that does not answer [true] has written nothing, with
    one exception: whatever it answered instead ([false], [null], a
    rejection or, for the lookups, a record or a set), both tables are
    as they were, unless the call is a join or a leave whose first five
    queries went through and whose COMMIT was rejected. *)
Theorem failed_call_keeps_tables c w :
  answered_true (fst (run c w)) = false →
  db (snd (run c w)) = db w ∨
  (calm 5 w = true ∧ faults w !! 5%nat = Some true ∧
   ∃ u r, c = AddUserToRoom u r ∨ c = RemoveUserFromRoom u r).
Proof.
  destruct (read_only c) eqn:Hro; [intros _; left; by apply read_only_db|].
  destruct c as [u|u p c|u p|u c|u b|u r|u r|u|r|r d|r|u k|u];
    try done; unfold run.
  - intros Hans. left. revert Hans. unfold fmap_promise, then_, resolve.
    rewrite createUserProfile_run.
    destruct (faulty w); simpl; [done|].
    destruct (users (db w) !! u); simpl; [done|].
    match goal with |- context [faulty ?x] => destruct (faulty x) end;
      by simpl.
  - intros Hans. left. revert Hans. unfold fmap_promise, then_, resolve, updateUserProfile.
    rewrite users_update_run. by destruct (faulty w).
  - intros Hans. left. revert Hans. unfold fmap_promise, then_, resolve, setUserStatus.
    rewrite users_update_run. by destruct (faulty w).
  - destruct (addUserToRoom_run u r w) as (Hres & Hdb & _).
    rewrite snd_fmap_promise, Hdb, (fst_fmap_promise _ _ _ _ Hres); simpl.
    destruct (join_tables u r (db w)); [|by left].
    destruct (calm 5 w) eqn:H5; [|by left].
    destruct (calm 6 w) eqn:H6; [done|]. intros _. right.
    split_and!; [done|by apply commit_rejected|eauto].
  - destruct (removeUserFromRoom_run u r w) as (Hres & Hdb & _).
    rewrite snd_fmap_promise, Hdb, (fst_fmap_promise _ _ _ _ Hres); simpl.
    destruct (leave_tables u r (db w)); [|by left].
    destruct (calm 5 w) eqn:H5; [|by left].
    destruct (calm 6 w) eqn:H6; [done|]. intros _. right.
    split_and!; [done|by apply commit_rejected|eauto].
  - intros Hans. left. revert Hans. unfold fmap_promise, then_, resolve.
    rewrite createRoom_run.
    destruct (faulty w); simpl; [done|].
    destruct (rooms (db w) !! toLowerCase r); simpl; [done|].
    destruct (openpgp_generateKey _ _ _) as [[pub priv]|]; simpl; [|done].
    match goal with |- context [faulty ?x] => destruct (faulty x) end;
      by simpl.
  - intros Hans. left. revert Hans. unfold fmap_promise, then_, resolve, setUserPublicKey.
    rewrite users_update_run. by destruct (faulty w).
Qed.

Lemma write_membership_commute u1 r1 rs1 ms1 u2 r2 rs2 ms2 t :
  u1 ≠ u2 → r1 ≠ r2 →
  write_membership u1 r1 rs1 ms1 (write_membership u2 r2 rs2 ms2 t)
  = write_membership u2 r2 rs2 ms2 (write_membership u1 r1 rs1 ms1 t).
Proof.
  intros Hu Hr. unfold write_membership; simpl.
  f_equal; by apply alter_alter_ne.
Qed.

Lemma join_tables_past u r u' r' rs ms t :
  toLowerCase r = r → u ≠ u' → r ≠ r' →
  join_tables u r (write_membership u' r' rs ms t)
  = write_membership u' r' rs ms <$> join_tables u r t.
Proof.
  intros Hlow Hu Hr. unfold join_tables; simpl.
  rewrite Hlow, !lookup_alter_ne by done.
  destruct (users t !! u); simpl; [|done].
  destruct (rooms t !! r ≫= room_of r); simpl; [|done].
  by rewrite write_membership_commute.
Qed.

Lemma leave_tables_past u r u' r' rs ms t :
  toLowerCase r = r → u ≠ u' → r ≠ r' →
  leave_tables u r (write_membership u' r' rs ms t)
  = write_membership u' r' rs ms <$> leave_tables u r t.
Proof.
  intros Hlow Hu Hr. unfold leave_tables; simpl.
  rewrite Hlow, !lookup_alter_ne by done.
  destruct (users t !! u); simpl; [|done].
  destruct (rooms t !! r ≫= room_of r); simpl; [|done].
  by rewrite write_membership_commute.
Qed.

Lemma join_tables_shape u r t t' :
  join_tables u r t = Some t' → ∃ rs ms, t' = write_membership u r rs ms t.
Proof.
  unfold join_tables. destruct (users t !! u); simpl; [|done].
  destruct (_ ≫= room_of _); simpl; [|done]. intros [= <-]. eauto.
Qed.

Lemma leave_tables_shape u r t t' :
  leave_tables u r t = Some t' → ∃ rs ms, t' = write_membership u r rs ms t.
Proof.
  unfold leave_tables. destruct (users t !! u); simpl; [|done].
  destruct (_ ≫= room_of _); simpl; [|done]. intros [= <-]. eauto.
Qed.

Lemma join_quiet u r w :
  true ∉ faults w →
  db (snd (addUserToRoom u r w)) = default (db w) (join_tables u r (db w)) ∧
  true ∉ faults (snd (addUserToRoom u r w)).
Proof.
  intros Hq. pose proof (addUserToRoom_run u r w) as Hrun.
  split; [|by eapply quiet_after].
  destruct Hrun as (_ & -> & _). rewrite (calm_quiet 5 w Hq).
  by destruct (join_tables u r (db w)).
Qed.

Lemma leave_quiet u r w :
  true ∉ faults w →
  db (snd (removeUserFromRoom u r w))
    = default (db w) (leave_tables u r (db w)) ∧
  true ∉ faults (snd (removeUserFromRoom u r w)).
Proof.
  intros Hq. pose proof (removeUserFromRoom_run u r w) as Hrun.
  split; [|by eapply quiet_after].
  destruct Hrun as (_ & -> & _). rewrite (calm_quiet 5 w Hq).
  by destruct (leave_tables u r (db w)).
Qed.

(** X23 — membership changes of different users in different rooms do
    not interfere: with room names in lowercase and no query rejected,
    two joins leave the same tables in either order, and so do a join
    and a leave. *)
Theorem membership_calls_commute u1 r1 u2 r2 w :
  u1 ≠ u2 → r1 ≠ r2 → toLowerCase r1 = r1 → toLowerCase r2 = r2 →
  true ∉ faults w →
  db (exec [AddUserToRoom u1 r1; AddUserToRoom u2 r2] w)
    = db (exec [AddUserToRoom u2 r2; AddUserToRoom u1 r1] w) ∧
  db (exec [AddUserToRoom u1 r1; RemoveUserFromRoom u2 r2] w)
    = db (exec [RemoveUserFromRoom u2 r2; AddUserToRoom u1 r1] w).
Proof.
  intros Hu Hr Hl1 Hl2 Hq. unfold exec; simpl. rewrite !snd_fmap_promise.
  destruct (join_quiet u1 r1 w Hq) as [Hj1 Hq1].
  destruct (join_quiet u2 r2 w Hq) as [Hj2 Hq2].
  destruct (leave_quiet u2 r2 w Hq) as [Hl2' Hq2'].
  destruct (join_quiet u2 r2 _ Hq1) as [-> _].
  destruct (join_quiet u1 r1 _ Hq2) as [-> _].
  destruct (leave_quiet u2 r2 _ Hq1) as [-> _].
  destruct (join_quiet u1 r1 _ Hq2') as [-> _].
  rewrite Hj1, Hj2, Hl2'.
  destruct (join_tables u1 r1 (db w)) as [t1|] eqn:H1;
    destruct (join_tables u2 r2 (db w)) as [t2|] eqn:H2;
    destruct (leave_tables u2 r2 (db w)) as [t2'|] eqn:H2'; simpl;
    repeat match goal with
           | Hj : join_tables _ _ _ = Some _ |- _ =>
               let Hs := fresh in
               pose proof (join_tables_shape _ _ _ _ Hj) as (? & ? & Hs);
               rewrite Hs in *; clear Hs; revert Hj
           | Hj : leave_tables _ _ _ = Some _ |- _ =>
               let Hs := fresh in
               pose proof (leave_tables_shape _ _ _ _ Hj) as (? & ? & Hs);
               rewrite Hs in *; clear Hs; revert Hj
           end; intros;
    rewrite ?join_tables_past, ?leave_tables_past by done;
    repeat match goal with
           | Hj : _ = _ |- _ => rewrite Hj
           end; simpl;
    split; try done; by rewrite write_membership_commute.
Qed.

(** X24 — observation is mutual: on tables where the two sides of every
    edge agree, room names are in lowercase and every stored key can be
    armored, with no query rejected, [v] is among the observers that
    [getUserViews] returns for [u] exactly when [u] is among those it
    returns for [v]. *)
Theorem observation_mutual u v w Vu Vv :
  symmetric (db w) → normalized (db w) →
  (∀ k row, rooms (db w) !! k = Some row →
            is_Some (openpgp_armor (room_publicKey row))) →
  true ∉ faults w →
  fst (getUserViews u w) = Resolved (Some Vu) →
  fst (getUserViews v w) = Resolved (Some Vv) →
  v ∈ Vu ↔ u ∈ Vv.
Proof.
  intros Hsym Hn Harm Hq HVu HVv.
  assert (∀ a b Va,
            fst (getUserViews a w) = Resolved (Some Va) →
            b ∈ Va ↔
            ∃ k rrow, rooms (db w) !! k = Some rrow ∧
                      a ∈ room_members rrow ∧ b ∈ room_members rrow) as Hchar.
  { intros a b Va HVa.
    destruct (getUserViews_run a w) as (V' & (Hres & _) & _).
    rewrite HVa in Hres.
    destruct (faulty w); [done|].
    destruct (users (db w) !! a) as [arow|] eqn:Ha; [|done].
    destruct (getUserViews_quiet a w arow Hq Ha) as (V & HV & Hmem).
    rewrite HVa in HV. injection HV as <-. rewrite Hmem. split.
    - intros (r & rrow & Hin & Hr & _ & Hb).
      assert (in_rooms (db w) a r) as Hedge by (by exists arow).
      apply Hsym in Hedge as (row' & Hrow' & Ha').
      assert (toLowerCase r = r) as Hlow by (apply Hn; by rewrite Hrow').
      rewrite Hlow in Hr. exists r, rrow. split_and!; congruence.
    - intros (k & rrow & Hk & Ha' & Hb).
      assert (in_members (db w) a k) as Hedge by (by exists rrow).
      apply Hsym in Hedge as (arow' & Harow' & Hin).
      assert (toLowerCase k = k) as Hlow by (apply Hn; by rewrite Hk).
      exists k, rrow. rewrite Hlow. split_and!; eauto. congruence. }
  rewrite (Hchar u v Vu HVu), (Hchar v u Vv HVv).
  split; intros (k & rrow & ? & ? & ?); by exists k, rrow.
Qed.

End Coverage.

(** ** The claims on concrete worlds *)

Section Examples.
Import Toy.

Example toLowerCase_General : toLowerCase "GeNeRaL-42" = "general-42".
Proof. reflexivity. Qed.

Example set_insertion_order :
  JSSet.add "b" (JSSet.of_array ["c"; "a"; "c"]) = ["c"; "a"; "b"].
Proof. reflexivity. Qed.

Example set_delete_absent :
  JSSet.delete "z" (JSSet.of_array ["c"; "a"]) = ["c"; "a"].
Proof. reflexivity. Qed.

(** The observers of the specification's example. *)
Example getUserViews_ABC :
  fst (getUserViews "A" (views [])) = Resolved (Some ["A"; "B"; "C"]).
Proof. vm_compute. reflexivity. Qed.

(** A room whose read is rejected is skipped. *)
Example getUserViews_skips :
  fst (getUserViews "A" (views [false; true])) = Resolved (Some ["A"; "C"]).
Proof. vm_compute. reflexivity. Qed.

Example getUserViews_ghost :
  fst (getUserViews "ghost" (views [])) = Resolved None.
Proof. vm_compute. reflexivity. Qed.

Lemma lobby_symmetric fs : symmetric (db (lobby fs)).
Proof.
  intros u r. split.
  - intros (row & Hrow & Hin). exfalso. simpl in Hrow.
    apply lookup_insert_Some in Hrow as [[_ <-]|[_ Hrow]].
    + by apply elem_of_nil in Hin.
    + by rewrite lookup_empty in Hrow.
  - intros (row & Hrow & Hin). exfalso. simpl in Hrow.
    apply lookup_insert_Some in Hrow as [[_ <-]|[_ Hrow]].
    + by apply elem_of_nil in Hin.
    + by rewrite lookup_empty in Hrow.
Qed.

(** C1 — on a world where the two sides agree, holding user alice and
    room general, [addUserToRoom "alice" "General"] with no fault
    answers [true] and leaves "General" in the rooms of alice while no
    room holds alice as a member, whether read from the table or through
    [getRoom]: the two sides no longer agree. *)
Theorem addUserToRoom_mixed_case_asymmetric :
  symmetric (db (lobby [])) ∧
  fst (addUserToRoom "alice" "General" (lobby [])) = Resolved true ∧
  in_rooms (db (snd (addUserToRoom "alice" "General" (lobby []))))
    "alice" "General" ∧
  (∀ r, ¬ in_members (db (snd (addUserToRoom "alice" "General" (lobby []))))
          "alice" r) ∧
  fst (getRoom "General" (snd (addUserToRoom "alice" "General" (lobby []))))
    = Resolved (room_of "general" (room [])) ∧
  ¬ symmetric (db (snd (addUserToRoom "alice" "General" (lobby [])))).
Proof.
  assert (in_rooms (db (snd (addUserToRoom "alice" "General" (lobby []))))
            "alice" "General") as Hin.
  { exists (user ["General"]). split; [by vm_compute|].
    apply list_elem_of_singleton. done. }
  assert (rooms (db (snd (addUserToRoom "alice" "General" (lobby []))))
          = rooms (db (lobby []))) as Hrooms by (by vm_compute).
  assert (∀ r, ¬ in_members
                   (db (snd (addUserToRoom "alice" "General" (lobby []))))
                   "alice" r) as Hout.
  { intros r Hr. unfold in_members in Hr. rewrite Hrooms in Hr.
    apply (lobby_symmetric [] "alice" r) in Hr as (row & Hrow & Hr).
    simpl in Hrow. rewrite lookup_insert_eq in Hrow. injection Hrow as <-.
    by apply elem_of_nil in Hr. }
  split_and!; [apply lobby_symmetric|by vm_compute|done|done|by vm_compute|].
  intros Hsym. by apply (Hout "General"), Hsym.
Qed.


(** A is stored, the read of A is rejected: [getUserViews] answers
    [null] for a user that exists. *)
Lemma getUserViews_null_on_fault :
  users (db (views [true])) !! "A" = Some (user ["x"; "y"]) ∧
  faults (views [true]) !! 0%nat = Some true ∧
  fst (getUserViews "A" (views [true])) = Resolved None.
Proof. split_and!; [reflexivity|reflexivity|by vm_compute]. Qed.



(** C3 — [createRoom "General"] stores the room under "general";
    [getRoom "general"] returns that record and [existsRoom "GENERAL"]
    answers [true].  The membership calls do not follow:
    [addUserToRoom "alice" "general"] makes alice a member of the room,
    [addUserToRoom "alice" "General"] answers [true] as well and leaves
    the room without members. *)
Theorem room_name_case_membership :
  let w := world [("alice", user [])] [] [] in
  let w1 := snd (createRoom "General" None w) in
  fst (createRoom "General" None w) = Resolved true ∧
  rooms (db w1) !! "general" = Some (room []) ∧
  fst (getRoom "general" w1) = Resolved (room_of "general" (room [])) ∧
  fst (existsRoom "GENERAL" w1) = Resolved true ∧
  fst (addUserToRoom "alice" "general" w1) = Resolved true ∧
  fst (addUserToRoom "alice" "General" w1) = Resolved true ∧
  rooms (db (snd (addUserToRoom "alice" "general" w1))) !! "general"
    = Some (room ["alice"]) ∧
  rooms (db (snd (addUserToRoom "alice" "General" w1))) !! "general"
    = Some (room []) ∧
  in_members (db (snd (addUserToRoom "alice" "general" w1)))
    "alice" "general" ∧
  ¬ in_members (db (snd (addUserToRoom "alice" "General" w1)))
      "alice" "general".
Proof.
  intros w w1. split_and!; try by vm_compute.
  - exists (room ["alice"]). split; [by vm_compute|].
    by apply list_elem_of_singleton.
  - intros (row & Hrow & Hin). vm_compute in Hrow.
    injection Hrow as <-. by apply elem_of_nil in Hin.
Qed.

Lemma lobby_normalized fs : normalized (db (lobby fs)).
Proof.
  intros k [row Hrow]. simpl in Hrow.
  apply lookup_insert_Some in Hrow as [[<- _]|[_ Hrow]]; [done|].
  by rewrite lookup_empty in Hrow.
Qed.

(** The session of alice. *)
Lemma getUserSession_offline_witness :
  fst (getUserSession "alice" (lobby []))
    = Resolved (Some (session_of "alice" (user []))) ∧
  (Session.offline (session_of "alice" (user []))
     = negb (Session.online (session_of "alice" (user []))) ∧
   ∃ row, users (db (lobby [])) !! "alice" = Some row ∧
          Session.online (session_of "alice" (user []))
            = negb (user_online row =? 0)).
Proof.
  split; [by vm_compute|].
  apply (getUserSession_offline "alice" (lobby [])). by vm_compute.
Defined.



(** Joining and leaving twice, with no fault. *)
Lemma membership_idempotent_witness :
  (true ∉ faults (lobby [])) ∧
  db (exec [AddUserToRoom "alice" "general"; AddUserToRoom "alice" "general"]
        (lobby []))
    = db (exec [AddUserToRoom "alice" "general"] (lobby [])) ∧
  db (exec [RemoveUserFromRoom "alice" "general";
            RemoveUserFromRoom "alice" "general"] (lobby []))
    = db (exec [RemoveUserFromRoom "alice" "general"] (lobby [])).
Proof.
  split; [apply not_elem_of_nil|].
  apply (membership_idempotent "alice" "general" (lobby [])).
  apply not_elem_of_nil.
Defined.

(** Signing up alice twice. *)
Lemma createUserProfile_twice_witness :
  users (db (world [] [] [])) !! "alice" = None ∧
  calm 2 (world [] [] []) = true ∧
  ∃ w1 row,
    createUserProfile "alice" "correct" "red" (world [] [] [])
      = (Resolved (Some true), w1) ∧
    users (db w1) !! "alice" = Some row ∧
    user_password row = bcrypt_hash "correct" 10 0 ∧
    user_rooms row = [] ∧ user_online row = 0 ∧
    Session.rooms (session_of "alice" row) = JSSet.empty ∧
    Session.online (session_of "alice" row) = false ∧
    fst (createUserProfile "alice" "other" "blue" w1)
      = Resolved (if faulty w1 then None else Some false) ∧
    db (snd (createUserProfile "alice" "other" "blue" w1)) = db w1.
Proof.
  split; [reflexivity|]. split; [reflexivity|].
  apply (createUserProfile_twice "alice" "correct" "red" "other" "blue"
           (world [] [] [])); reflexivity.
Defined.


(** Creating room General, a join, then creating GENERAL. *)
Lemma createRoom_keys_fixed_witness :
  createRoom "General" None (world [("alice", user [])] [] [])
    = (Resolved true,
       snd (createRoom "General" None (world [("alice", user [])] [] []))) ∧
  toLowerCase "GENERAL" = toLowerCase "General" ∧
  fst (createRoom "GENERAL" (Some "again")
         (exec [AddUserToRoom "alice" "general"]
            (snd (createRoom "General" None
                    (world [("alice", user [])] [] [])))))
    = Resolved false.
Proof.
  split; [by vm_compute|]. split; [reflexivity|].
  destruct (createRoom_keys_fixed "General" None
              (world [("alice", user [])] [] [])
              (snd (createRoom "General" None
                      (world [("alice", user [])] [] [])))
              [AddUserToRoom "alice" "general"] "GENERAL" (Some "again"))
    as (pub & priv & row & _ & _ & Hres & _); [by vm_compute|reflexivity|].
  exact Hres.
Defined.

(** The observers of A, with no fault and with the read of x rejected. *)
Lemma getUserViews_union_witness :
  ∃ V, fst (getUserViews "A" (views [])) = Resolved (Some V) ∧
       V = ["A"; "B"; "C"] ∧ NoDup V ∧
       fst (getUserViews "A" (views [false; true])) = Resolved (Some ["A"; "C"]) ∧
       ∀ v, v ∈ V ↔
         ∃ i r rrow,
           first_occurrences ["x"; "y"] !! i = Some r ∧
           faults (views []) !! S i ≠ Some true ∧
           rooms (db (views [])) !! toLowerCase r = Some rrow ∧
           is_Some (openpgp_armor (room_publicKey rrow)) ∧
           v ∈ room_members rrow.
Proof.
  pose proof (getUserViews_union "A" (views [])) as Hviews.
  assert (users (db (views [])) !! "A" = Some (user ["x"; "y"])) as Hu
    by reflexivity.
  rewrite Hu in Hviews. simpl in Hviews.
  destruct Hviews as (V & Hres & Hnd & HV).
  exists V. split; [exact Hres|].
  assert (fst (getUserViews "A" (views [])) = Resolved (Some ["A"; "B"; "C"]))
    as Hval by (by vm_compute).
  rewrite Hval in Hres. injection Hres as <-.
  split_and!; [reflexivity|exact Hnd|by vm_compute|exact HV].
Defined.

End Examples.

(** ** The further properties on concrete worlds *)

Section CoverageExamples.
Import Toy.

(** A leaves x: the update of the room rejected, then COMMIT rejected. *)
Lemma removeUserFromRoom_failure_witness :
  (∃ i, (i < 5)%nat ∧
        faults (views [false; false; false; false; true]) !! i = Some true) ∧
  fst (removeUserFromRoom "A" "x" (views [false; false; false; false; true]))
    = Resolved false ∧
  db (snd (removeUserFromRoom "A" "x"
             (views [false; false; false; false; true])))
    = db (views [false; false; false; false; true]) ∧
  calm 5 (views [false; false; false; false; false; true]) = true ∧
  faults (views [false; false; false; false; false; true]) !! 5%nat
    = Some true ∧
  fst (removeUserFromRoom "A" "x"
         (views [false; false; false; false; false; true])) = Resolved false ∧
  rooms (db (snd (removeUserFromRoom "A" "x"
                    (views [false; false; false; false; false; true]))))
    !! "x" = Some (room ["B"]).
Proof.
  assert (∃ i, (i < 5)%nat ∧
               faults (views [false; false; false; false; true]) !! i
                 = Some true) as Hfault.
  { exists 4%nat. split; [lia|reflexivity]. }
  destruct (removeUserFromRoom_failure "A" "x"
              (views [false; false; false; false; true]))
    as [[Hres Hdb] _]; [right; right; exact Hfault|].
  destruct (removeUserFromRoom_failure "A" "x"
              (views [false; false; false; false; false; true]))
    as [_ Hcommit].
  destruct Hcommit as [Hres' Hdb']; [reflexivity..|].
  split_and!; [exact Hfault|exact Hres|exact Hdb|reflexivity|reflexivity
              |exact Hres'|].
  rewrite Hdb'. by vm_compute.
Defined.

Lemma read_only_calls_keep_tables_witness :
  Forall (λ c, read_only c = true)
    [GetUserViews "A"; GetRoom "X"; ExistsRoom "y";
     CompareUserProfile "A" "secret"; GetUserSession "B";
     GetUserPublicKey "C"] ∧
  db (exec [GetUserViews "A"; GetRoom "X"; ExistsRoom "y";
            CompareUserProfile "A" "secret"; GetUserSession "B";
            GetUserPublicKey "C"] (views [false; true; false]))
    = db (views [false; true; false]).
Proof.
  assert (Forall (λ c, read_only c = true)
            [GetUserViews "A"; GetRoom "X"; ExistsRoom "y";
             CompareUserProfile "A" "secret"; GetUserSession "B";
             GetUserPublicKey "C"]) as Hro.
  { repeat (apply Forall_cons_2; [reflexivity|]). apply Forall_nil_2. }
  split; [exact Hro|].
  apply (read_only_calls_keep_tables _ (views [false; true; false]) Hro).
Defined.

Lemma updates_of_missing_user_witness :
  users (db (lobby [])) !! "ghost" = None ∧ faulty (lobby []) = false ∧
  fst (updateUserProfile "ghost" "green" (lobby [])) = Resolved true ∧
  db (snd (updateUserProfile "ghost" "green" (lobby []))) = db (lobby []).
Proof.
  split; [reflexivity|]. split; [reflexivity|].
  destruct (updates_of_missing_user "ghost" "green" true [x01] (lobby []))
    as (Hres & Hdb & _); [reflexivity..|].
  split; [exact Hres|exact Hdb].
Defined.

Lemma createRoom_keygen_failure_witness :
  rooms (db (lobby [])) !! toLowerCase "Lounge" = None ∧
  faulty (lobby []) = false ∧
  fst (@createRoom no_keys "Lounge" None (lobby [])) = Rejected ∧
  db (snd (@createRoom no_keys "Lounge" None (lobby []))) = db (lobby []).
Proof.
  split; [reflexivity|]. split; [reflexivity|].
  apply (@createRoom_keygen_failure no_keys "Lounge" None (lobby []));
    reflexivity.
Defined.



Lemma unreadable_key_hides_room_witness :
  rooms (db (lobby [])) !! toLowerCase "General" = Some (room []) ∧
  @openpgp_armor no_keys (room_publicKey (room [])) = None ∧
  fst (@getRoom no_keys "General" (lobby [])) = Resolved None ∧
  fst (existsRoom "General" (lobby [])) = Resolved true ∧
  fst (@addUserToRoom no_keys "alice" "General" (lobby [])) = Resolved false.
Proof.
  split; [reflexivity|]. split; [reflexivity|].
  destruct (@unreadable_key_hides_room no_keys "alice" "General" (lobby [])
              (room [])) as (Hget & Hex & Hjoin & _); [reflexivity..|].
  split_and!; [exact Hget|exact Hex|exact Hjoin].
Defined.

Lemma join_then_leave_restores_witness :
  toLowerCase "general" = "general" ∧
  users (db (lobby [])) !! "alice" = Some (user []) ∧
  rooms (db (lobby [])) !! "general" = Some (room []) ∧
  (true ∉ faults (lobby [])) ∧
  db (exec [AddUserToRoom "alice" "general";
            RemoveUserFromRoom "alice" "general"] (lobby []))
    = db (lobby []).
Proof.
  split; [reflexivity|]. split; [reflexivity|]. split; [reflexivity|].
  split; [apply not_elem_of_nil|].
  apply (join_then_leave_restores "alice" "general" (lobby []) (user [])
           (room []) "-----BEGIN PGP PUBLIC KEY BLOCK-----");
    try reflexivity; try apply NoDup_nil_2; apply not_elem_of_nil.
Defined.

Lemma join_visible_witness :
  toLowerCase "general" = "general" ∧
  addUserToRoom "alice" "general" (lobby [])
    = (Resolved true, snd (addUserToRoom "alice" "general" (lobby []))) ∧
  faulty (snd (addUserToRoom "alice" "general" (lobby []))) = false ∧
  (∃ s, fst (getUserSession "alice"
               (snd (addUserToRoom "alice" "general" (lobby []))))
          = Resolved (Some s) ∧ "general" ∈ Session.rooms s) ∧
  (∃ room, fst (getRoom "general"
                  (snd (addUserToRoom "alice" "general" (lobby []))))
             = Resolved (Some room) ∧
           "alice" ∈ Room.members room ∧ Room.name room = "general").
Proof.
  split; [reflexivity|]. split; [by vm_compute|]. split; [by vm_compute|].
  apply (join_visible "alice" "general" (lobby [])); by vm_compute.
Defined.

Lemma leave_visible_witness :
  toLowerCase "x" = "x" ∧
  removeUserFromRoom "A" "x" (views [])
    = (Resolved true, snd (removeUserFromRoom "A" "x" (views []))) ∧
  faulty (snd (removeUserFromRoom "A" "x" (views []))) = false ∧
  (∃ s, fst (getUserSession "A" (snd (removeUserFromRoom "A" "x" (views []))))
          = Resolved (Some s) ∧ "x" ∉ Session.rooms s) ∧
  (∃ room, fst (getRoom "x" (snd (removeUserFromRoom "A" "x" (views []))))
             = Resolved (Some room) ∧ "A" ∉ Room.members room).
Proof.
  split; [reflexivity|]. split; [by vm_compute|]. split; [by vm_compute|].
  apply (leave_visible "A" "x" (views [])); by vm_compute.
Defined.

Lemma busy_lowercase : Forall lowercase_names busy.
Proof. repeat (apply Forall_cons_2; [by vm_compute|]). apply Forall_nil_2. Qed.

Lemma exec_symmetric_calls_witness :
  Forall lowercase_names busy ∧ symmetric (db (lobby [])) ∧
  symmetric (db (exec (take 6 busy) (lobby []))).
Proof.
  split; [apply busy_lowercase|]. split; [apply lobby_symmetric|].
  apply (exec_symmetric_calls busy (lobby []) 6);
    [apply busy_lowercase|apply lobby_symmetric].
Defined.


Lemma room_names_stay_lowercase_witness :
  normalized (db (lobby [])) ∧
  rooms (db (exec busy (lobby []))) !! "lounge" = Some (room ["bob"]) ∧
  toLowerCase "lounge" = "lounge" ∧
  fst (existsRoom "lounge" (exec busy (lobby []))) = Resolved true.
Proof.
  split; [apply lobby_normalized|]. split; [by vm_compute|].
  destruct (room_names_stay_lowercase busy (lobby []) "lounge"
              (room ["bob"])) as (Hlow & Hex & _);
    [apply lobby_normalized|by vm_compute|].
  split; [exact Hlow|exact Hex].
Defined.

Lemma updateUserProfile_roundtrip_witness :
  users (db (lobby [])) !! "alice" = Some (user []) ∧
  calm 2 (lobby []) = true ∧ "bob" ≠ "alice" ∧
  fst (updateUserProfile "alice" "green" (lobby [])) = Resolved true ∧
  fst (getUserSession "alice"
         (snd (updateUserProfile "alice" "green" (lobby []))))
    = Resolved
        (Some (Session.mk "alice" None "$2b$secret" "green" [] false true
                 None)).
Proof.
  split; [reflexivity|]. split; [reflexivity|]. split; [done|].
  destruct (updateUserProfile_roundtrip "alice" "green" (lobby []) (user [])
              "bob") as (Hres & Hget & _); [reflexivity|reflexivity|done|].
  split; [exact Hres|exact Hget].
Defined.

Lemma setUserStatus_roundtrip_witness :
  users (db (lobby [])) !! "alice" = Some (user []) ∧
  calm 2 (lobby []) = true ∧ "bob" ≠ "alice" ∧
  fst (setUserStatus "alice" true (lobby [])) = Resolved true ∧
  fst (getUserSession "alice" (snd (setUserStatus "alice" true (lobby []))))
    = Resolved
        (Some (Session.mk "alice" None "$2b$secret" "red" [] true false
                 None)).
Proof.
  split; [reflexivity|]. split; [reflexivity|]. split; [done|].
  destruct (setUserStatus_roundtrip "alice" true (lobby []) (user []) "bob")
    as (Hres & Hget & _); [reflexivity|reflexivity|done|].
  split; [exact Hres|exact Hget].
Defined.

Lemma setUserPublicKey_roundtrip_witness :
  users (db (lobby [])) !! "alice" = Some (user []) ∧
  calm 2 (lobby []) = true ∧ "bob" ≠ "alice" ∧
  fst (setUserPublicKey "alice" [x2a; x07] (lobby [])) = Resolved true ∧
  fst (getUserPublicKey "alice"
         (snd (setUserPublicKey "alice" [x2a; x07] (lobby []))))
    = Resolved (Some [x2a; x07]).
Proof.
  split; [reflexivity|]. split; [reflexivity|]. split; [done|].
  destruct (setUserPublicKey_roundtrip "alice" [x2a; x07] (lobby [])
              (user []) "bob") as (Hres & Hget & _);
    [reflexivity|reflexivity|done|].
  split; [exact Hres|exact Hget].
Defined.

Lemma createUserProfile_then_lookups_witness :
  createUserProfile "bob" "hunter2" "blue" (lobby [])
    = (Resolved (Some true),
       snd (createUserProfile "bob" "hunter2" "blue" (lobby []))) ∧
  fst (getUserPublicKey "bob"
         (snd (createUserProfile "bob" "hunter2" "blue" (lobby []))))
    = Resolved None ∧
  fst (getUserSession "bob"
         (snd (createUserProfile "bob" "hunter2" "blue" (lobby []))))
    = Resolved
        (Some (Session.mk "bob" None "$2b$hunter2" "blue" [] false true None)).
Proof.
  split; [by vm_compute|].
  destruct (createUserProfile_then_lookups "bob" "hunter2" "blue" (lobby [])
              (snd (createUserProfile "bob" "hunter2" "blue" (lobby []))))
    as [Hkey Hget]; [by vm_compute|].
  split; [exact Hkey|exact Hget].
Defined.

Lemma createRoom_getRoom_roundtrip_witness :
  createRoom "Lounge" (Some "sofas") (lobby [])
    = (Resolved true, snd (createRoom "Lounge" (Some "sofas") (lobby []))) ∧
  toLowerCase "LOUNGE" = toLowerCase "Lounge" ∧
  faulty (snd (createRoom "Lounge" (Some "sofas") (lobby []))) = false ∧
  ∃ pub priv,
    openpgp_generateKey "Lounge" 2048 (entropy (lobby [])) = Some (pub, priv) ∧
    fst (existsRoom "LOUNGE"
           (snd (createRoom "Lounge" (Some "sofas") (lobby []))))
      = Resolved true ∧
    fst (getRoom "LOUNGE" (snd (createRoom "Lounge" (Some "sofas") (lobby []))))
      = Resolved
          (match openpgp_armor pub with
           | Some armored =>
               Some (Room.mk (toLowerCase "Lounge") (Some "sofas") JSSet.empty
                       pub priv armored)
           | None => None
           end).
Proof.
  split; [by vm_compute|]. split; [reflexivity|]. split; [by vm_compute|].
  apply (createRoom_getRoom_roundtrip "Lounge" (Some "sofas") (lobby []));
    by vm_compute.
Defined.

Lemma join_makes_observers_witness :
  toLowerCase "y" = "y" ∧
  rooms (db (views [])) !! "y" = Some (room ["A"; "C"]) ∧
  addUserToRoom "B" "y" (views [])
    = (Resolved true, snd (addUserToRoom "B" "y" (views []))) ∧
  (true ∉ faults (snd (addUserToRoom "B" "y" (views [])))) ∧
  ∃ V, fst (getUserViews "B" (snd (addUserToRoom "B" "y" (views []))))
         = Resolved (Some V) ∧
       "B" ∈ V ∧ ∀ v, v ∈ room_members (room ["A"; "C"]) → v ∈ V.
Proof.
  split; [reflexivity|]. split; [reflexivity|]. split; [by vm_compute|].
  split; [apply not_elem_of_nil|].
  apply (join_makes_observers "B" "y" (views []));
    [reflexivity|reflexivity|by vm_compute|apply not_elem_of_nil].
Defined.

Lemma mixed_case_keeps_rooms_witness :
  normalized (db (views [])) ∧ toLowerCase "X" ≠ "X" ∧
  rooms (db (snd (removeUserFromRoom "A" "X" (views []))))
    = rooms (db (views [])).
Proof.
  assert (normalized (db (views []))) as Hn.
  { intros k [row Hrow]. simpl in Hrow.
    apply lookup_insert_Some in Hrow as [[<- _]|[_ Hrow]]; [done|].
    apply lookup_insert_Some in Hrow as [[<- _]|[_ Hrow]]; [done|].
    by rewrite lookup_empty in Hrow. }
  split; [exact Hn|]. split; [done|].
  destruct (mixed_case_keeps_rooms "A" "X" (views []) Hn) as [_ Hleave];
    [done|].
  exact Hleave.
Defined.


Lemma failed_call_keeps_tables_witness :
  answered_true
    (fst (run (AddUserToRoom "alice" "general")
            (lobby [false; false; false; false; true]))) = false ∧
  (db (snd (run (AddUserToRoom "alice" "general")
              (lobby [false; false; false; false; true])))
     = db (lobby [false; false; false; false; true]) ∨
   (calm 5 (lobby [false; false; false; false; true]) = true ∧
    faults (lobby [false; false; false; false; true]) !! 5%nat = Some true ∧
    ∃ u r, AddUserToRoom "alice" "general" = AddUserToRoom u r ∨
           AddUserToRoom "alice" "general" = RemoveUserFromRoom u r)).
Proof.
  split; [by vm_compute|].
  apply (failed_call_keeps_tables (AddUserToRoom "alice" "general")
           (lobby [false; false; false; false; true])).
  by vm_compute.
Defined.

Lemma membership_calls_commute_witness :
  "B" ≠ "C" ∧ "y" ≠ "x" ∧ toLowerCase "y" = "y" ∧ toLowerCase "x" = "x" ∧
  (true ∉ faults (views [])) ∧
  db (exec [AddUserToRoom "B" "y"; AddUserToRoom "C" "x"] (views []))
    = db (exec [AddUserToRoom "C" "x"; AddUserToRoom "B" "y"] (views [])).
Proof.
  split; [done|]. split; [done|]. split; [reflexivity|].
  split; [reflexivity|]. split; [apply not_elem_of_nil|].
  destruct (membership_calls_commute "B" "y" "C" "x" (views []))
    as [Hjoins _]; [done|done|reflexivity|reflexivity|apply not_elem_of_nil|].
  exact Hjoins.
Defined.

Lemma meeting_lowercase : Forall lowercase_names meeting.
Proof. repeat (apply Forall_cons_2; [by vm_compute|]). apply Forall_nil_2. Qed.

Lemma meeting_quiet : true ∉ faults (exec meeting (lobby [])).
Proof.
  assert (faults (exec meeting (lobby [])) = []) as -> by (by vm_compute).
  apply not_elem_of_nil.
Qed.

Lemma observation_mutual_witness :
  symmetric (db (exec meeting (lobby []))) ∧
  normalized (db (exec meeting (lobby []))) ∧
  (true ∉ faults (exec meeting (lobby []))) ∧
  fst (getUserViews "alice" (exec meeting (lobby [])))
    = Resolved (Some ["alice"; "bob"]) ∧
  fst (getUserViews "bob" (exec meeting (lobby [])))
    = Resolved (Some ["alice"; "bob"]) ∧
  ("bob" ∈ ["alice"; "bob"] ↔ "alice" ∈ ["alice"; "bob"]).
Proof.
  assert (symmetric (db (exec meeting (lobby [])))) as Hsym.
  { apply symmetric_exec; [apply meeting_lowercase|apply lobby_symmetric]. }
  assert (normalized (db (exec meeting (lobby [])))) as Hn.
  { apply exec_normalized, lobby_normalized. }
  split; [exact Hsym|]. split; [exact Hn|]. split; [apply meeting_quiet|].
  split; [by vm_compute|]. split; [by vm_compute|].
  apply (observation_mutual "alice" "bob" (exec meeting (lobby [])));
    [exact Hsym|exact Hn|intros; by eexists|apply meeting_quiet
    |by vm_compute|by vm_compute].
Defined.

End CoverageExamples.
